(** * embedding_app: the ingestion-to-index pipeline

    A shallow embedding of the core of the [embedding_app] package
    ([embedding_client.py], [vector_store.py], [utils.py], [document.py]
    and the orchestration in [cli.py]) together with the properties its
    specification states about it.

    Python values are modelled by an inductive type, dictionaries by
    stdpp's finite maps, exceptions by an error type, and everything the
    program does to the outside world (the embedding endpoint, the
    output directory, the random generator, the source collaborators) by
    an explicit world threaded through a state-and-error monad; what the
    outside world answers is an argument of the function that asks. *)

From stdpp Require Import gmap strings list fin_maps.
From Stdlib Require Import ZArith Lia Ascii.
From Stdlib Require QArith.QArith_base.

Set Warnings "-register-all".
#[local] Open Scope Z_scope.

(* ================================================================== *)
(** * Python values *)
(* ================================================================== *)

(** What [json.loads] / [response.json()] can return, which is also what
    a metadata dictionary holds once its keys are strings. *)
Inductive pyvalue : Type :=
  | PNone
  | PBool (b : bool)
  | PInt (z : Z)
  | PFloat (q : QArith_base.Q)
  | PStr (s : string)
  | PList (items : list pyvalue)
  | PDict (fields : gmap string pyvalue).

(** [len(v)]; [None] stands for the [TypeError] of an unsized value. *)
Definition py_len (v : pyvalue) : option nat :=
  match v with
  | PStr s => Some (String.length s)
  | PList items => Some (length items)
  | PDict fields => Some (size fields)
  | _ => None
  end.

(** The one-character strings of a string, as iterating it yields. *)
Fixpoint py_chars (s : string) : list pyvalue :=
  match s with
  | EmptyString => []
  | String c rest => PStr (String c EmptyString) :: py_chars rest
  end.

(** [for item in v]: the items of a list, the keys of a dictionary, the
    characters of a string; [None] stands for the [TypeError] of a value
    that is not iterable. *)
Definition py_iter (v : pyvalue) : option (list pyvalue) :=
  match v with
  | PList items => Some items
  | PDict fields => Some (PStr <$> (map_to_list fields).*1)
  | PStr s => Some (py_chars s)
  | _ => None
  end.

(** [range(start, stop, step)]; [None] stands for the [ValueError] of a
    zero step. *)
Definition py_range_length (start stop step : Z) : Z :=
  if decide (0 < step)
  then (if decide (start < stop) then (stop - start - 1) / step + 1 else 0)
  else (if decide (stop < start) then (start - stop - 1) / (- step) + 1 else 0).

Definition py_range (start stop step : Z) : option (list Z) :=
  if decide (step = 0) then None
  else Some ((λ k : nat, start + Z.of_nat k * step)
               <$> seq 0 (Z.to_nat (py_range_length start stop step))).

(** [l[lo:hi]]: negative bounds count from the end, and both are clamped
    to the list. *)
Definition py_slice_bound (len i : Z) : Z :=
  if decide (i < 0) then Z.max 0 (i + len) else Z.min i len.

Definition py_slice {A : Type} (l : list A) (lo hi : Z) : list A :=
  let len := Z.of_nat (length l) in
  let lo' := py_slice_bound len lo in
  let hi' := py_slice_bound len hi in
  take (Z.to_nat (hi' - lo')) (drop (Z.to_nat lo') l).

(* ================================================================== *)
(** * document.py, config.py *)
(* ================================================================== *)

(** [Document]: [__post_init__] makes every key a string, so the
    metadata is a map from strings. *)
Record Document : Type := mkDocument {
  text : string;
  metadata : gmap string pyvalue
}.

Record EmbeddingConfig : Type := mkEmbeddingConfig {
  endpoint : string;
  batch_size : Z;
  model_kwargs : gmap string pyvalue
}.

(* ================================================================== *)
(** * Exceptions *)
(* ================================================================== *)

(** The exceptions the pipeline can end with, under the names of the
    specification's taxonomy; the comment gives what the code raises. *)
Inductive persistence_stage : Type :=
  | AtMkdir          (* store_dir.mkdir *)
  | AtWriteIndex     (* faiss.write_index *)
  | AtOpenMetadata   (* metadata_file.open *)
  | AtDumpMetadata.  (* json.dump *)

Inductive error : Type :=
  | NoDocumentsError
      (* RuntimeError("No documents were collected. ...") *)
  | SourceError
      (* whatever a parser or a source handler raised *)
  | ServiceError
      (* what requests.post, raise_for_status or response.json raised *)
  | ResponseFormatError
      (* ValueError("Unexpected embedding format returned from the API") *)
  | ResponseCountError (expected got : nat)
      (* ValueError(f"Expected {expected} embeddings, got {got}") *)
  | CardinalityError (ndocuments nembeddings : nat)
      (* ValueError("Number of documents (..) does not match ..") *)
  | EmptyInputError
      (* ValueError("Cannot build vector store with no embeddings") *)
  | IndexConstructionError
      (* what len(embeddings[0]), np.array or faiss raised *)
  | PersistenceError (stage : persistence_stage)
      (* the OSError / TypeError of a failed mkdir or write *)
  | PyValueError
      (* ValueError("range() arg 3 must not be zero") *)
  | PyAttributeError
      (* the response is not a dictionary: no attribute 'get' *)
  | PyTypeError
      (* the "data" field is not iterable *)
  | FuelExhausted.
      (* not an exception: the supply of random choices ran out while
         the naming loop was still running *)

(* ================================================================== *)
(** * The world *)
(* ================================================================== *)

(** The in-memory index: [IndexIDMap(IndexFlatL2(dim))] after
    [add_with_ids(vectors, ids)]. *)
Record faiss_index : Type := mkIndex {
  dim : nat;
  rows : list (Z * pyvalue)
}.

(** What a store directory can hold. *)
Inductive artifact : Type :=
  | IndexFile (ix : faiss_index)
  | MetadataFile (entries : list (gmap string pyvalue))
  | Truncated.   (* opened for writing, the dump did not complete *)

(** An entry of a directory that stores are written to. *)
Inductive node : Type :=
  | RegularFile
  | Directory (files : gmap string artifact).

(** What the run does that the outside can observe, besides the
    files it writes. *)
Inductive event : Type :=
  | EvClone (url : string)
      (* git.Repo.clone_from *)
  | EvListPages (space_key : string)
      (* Confluence.get_all_pages_from_space *)
  | EvPost (batch : list string) (payload : gmap string pyvalue)
      (* requests.post(endpoint, json=payload) *)
  | EvIndex (ix : faiss_index).
      (* faiss index constructed and filled *)

(** The file system lists its entries by (directory, name):
    [Path(base) / name].
    The random generator is the supply of the choices it will make, each
    the position chosen in the population. *)
Record world : Type := mkWorld {
  fs : gmap (string * string) node;
  trace : list event;            (* oldest first *)
  rng : list nat
}.

(** The state-and-error monad of the pipeline. *)
Definition M (A : Type) : Type := world → world * (error + A).

#[export] Instance M_ret : MRet M := λ A (a : A) w, (w, inr a).
#[export] Instance M_bind : MBind M := λ A B (f : A → M B) (m : M A) w,
  match m w with
  | (w', inl e) => (w', inl e)
  | (w', inr a) => f a w'
  end.

Definition raise {A : Type} (e : error) : M A := λ w, (w, inl e).
Definition get_world : M world := λ w, (w, inr w).
Definition emit (ev : event) : M unit :=
  λ w, (mkWorld (fs w) (trace w ++ [ev]) (rng w), inr tt).
Definition put_fs (d : gmap (string * string) node) : M unit :=
  λ w, (mkWorld d (trace w) (rng w), inr tt).
Definition put_rng (r : list nat) : M unit :=
  λ w, (mkWorld (fs w) (trace w) r, inr tt).
Definition or_raise {A : Type} (o : option A) (e : error) : M A :=
  match o with Some a => mret a | None => raise e end.

(* ================================================================== *)
(** * embedding_client.py *)
(* ================================================================== *)

(** How a call to the endpoint ends: the [try] block raises, or
    [response.json()] gives a value. *)
Inductive http_outcome : Type :=
  | HttpFailure
  | HttpJson (data : pyvalue).

(** The endpoint: its answer to a payload, given all that happened
    before. *)
Definition endpoint_behaviour : Type :=
  list event → gmap string pyvalue → http_outcome.

(** [payload = {"input": batch}; payload.update(model_kwargs)] *)
Definition make_payload (config : EmbeddingConfig) (batch : list string)
  : gmap string pyvalue :=
  model_kwargs config ∪ {["input" := PList (PStr <$> batch)]}.

(** The body of [for item in data.get("data", [])] for one item. *)
Definition parse_item (item : pyvalue) : error + pyvalue :=
  match item with
  | PDict fields =>
      match fields !! "embedding" with
      | Some v => inr v
      | None => inl ResponseFormatError
      end
  | PList _ => inr item
  | _ => inl ResponseFormatError
  end.

(** The whole [for item in ...] loop: the first item that is refused
    ends it. *)
Fixpoint parse_items (items : list pyvalue) : error + list pyvalue :=
  match items with
  | [] => inr []
  | item :: rest =>
      match parse_item item with
      | inl e => inl e
      | inr v =>
          match parse_items rest with
          | inl e => inl e
          | inr vs => inr (v :: vs)
          end
      end
  end.

(** From the decoded response to [batch_embeddings], count check
    included. *)
Definition parse_response (batch : list string) (data : pyvalue)
  : error + list pyvalue :=
  match data with
  | PDict fields =>
      match py_iter (default (PList []) (fields !! "data")) with
      | None => inl PyTypeError
      | Some items =>
          match parse_items items with
          | inl e => inl e
          | inr batch_embeddings =>
              if decide (length batch_embeddings ≠ length batch)
              then inl (ResponseCountError (length batch)
                                           (length batch_embeddings))
              else inr batch_embeddings
          end
      end
  | _ => inl PyAttributeError
  end.

Section EmbeddingClient.
Variable service : endpoint_behaviour.
Variable config : EmbeddingConfig.

(** One iteration: the request and the parsing of its response. *)
Definition embed_batch (batch : list string) : M (list pyvalue) :=
  w ← get_world;
  let payload := make_payload config batch in
  _ ← emit (EvPost batch payload);
  match service (trace w) payload with
  | HttpFailure => raise ServiceError
  | HttpJson data =>
      match parse_response batch data with
      | inl e => raise e
      | inr batch_embeddings => mret batch_embeddings
      end
  end.

(** [for start in range(0, len(documents), batch_size)], over the
    values of [start] still to come. *)
Fixpoint embed_loop (documents : list string) (starts : list Z)
    (embeddings : list pyvalue) : M (list pyvalue) :=
  match starts with
  | [] => mret embeddings
  | start :: starts' =>
      let batch := py_slice documents start (start + batch_size config) in
      batch_embeddings ← embed_batch batch;
      embed_loop documents starts' (embeddings ++ batch_embeddings)
  end.

Definition embed_documents (documents : list string) : M (list pyvalue) :=
  match documents with
  | [] => mret []
  | _ =>
      starts ← or_raise
        (py_range 0 (Z.of_nat (length documents)) (batch_size config))
        PyValueError;
      embed_loop documents starts []
  end.
End EmbeddingClient.

(* ================================================================== *)
(** * utils.py *)
(* ================================================================== *)

(** [string.ascii_uppercase + string.digits] *)
Definition alphabet : string := "ABCDEFGHIJKLMNOPQRSTUVWXYZ0123456789".

(** [random.choices(population, k=k)]: the next [k] choices of the
    generator, each a position in the population. *)
Definition random_choices (population : string) (k : nat) : M (list ascii) :=
  w ← get_world;
  if decide (k ≤ length (rng w))%nat
  then
    _ ← put_rng (drop k (rng w));
    mret ((λ i : nat, default "A"%char
             (String.get (i mod String.length population)%nat population))
            <$> take k (rng w))
  else raise FuelExhausted.

(** [random_suffix(length)] *)
Definition random_suffix (length : nat) : M string :=
  chars ← random_choices alphabet length;
  mret (String.string_of_list_ascii chars).

(** The parts of a path string between its slashes. *)
Fixpoint split_slash (s : string) : list string :=
  match s with
  | EmptyString => [EmptyString]
  | String c rest =>
      if Ascii.eqb c "/"%char then EmptyString :: split_slash rest
      else
        match split_slash rest with
        | part :: parts => String c part :: parts
        | [] => [String c EmptyString]
        end
  end.

(** [Path(s).parts] after the anchor: pathlib drops the empty parts and
    the single dots, and keeps the double dots. *)
Definition path_parts (s : string) : list string :=
  filter (λ part, part ≠ "" ∧ part ≠ ".") (split_slash s).

Definition is_absolute (s : string) : bool :=
  match s with
  | String "/" _ => true
  | _ => false
  end.

(** [Path(base_dir) / name]: whether it starts at the root, and its
    parts.  An absolute [name] replaces [base_dir]. *)
Definition joined (base_dir name : string) : bool * list string :=
  if is_absolute name then (true, path_parts name)
  else (is_absolute base_dir, path_parts base_dir ++ path_parts name).

(** A place in the tree of directories: from the root or from the
    working directory, with the double dots that lead above the latter
    in front. *)
Definition location : Type := bool * list string.

(** One part further: a double dot leads to the parent, and the root is
    its own parent. *)
Definition step (loc : location) (part : string) : location :=
  if decide (part = "..")
  then
    match last loc.2 with
    | None => if loc.1 then loc else (loc.1, [".."])
    | Some final =>
        if decide (final = "..") then (loc.1, loc.2 ++ [".."])
        else (loc.1, take (length loc.2 - 1) loc.2)
    end
  else (loc.1, loc.2 ++ [part]).

Definition settle (path : bool * list string) : location :=
  foldl step (path.1, []) path.2.

(** The root, the working directory and the directories above it are
    always there. *)
Definition always_there (loc : location) : bool :=
  forallb (λ part, bool_decide (part = "..")) loc.2.

(** The places an entry of the file system accounts for, each with
    whether it is a directory: the directories on the way to it, the
    entry, and the files of a store directory. *)
Definition places_of (key : string * string) (n : node) : list (location * bool) :=
  let path := joined key.1 key.2 in
  let on_the_way :=
    (λ k : nat, (settle (path.1, take k path.2), true)) <$> seq 0 (length path.2) in
  let here := settle path in
  match n with
  | RegularFile => on_the_way ++ [(here, false)]
  | Directory files =>
      on_the_way ++ (here, true)
      :: ((λ file : string, ((here.1, here.2 ++ [file]), false))
            <$> (map_to_list files).*1)
  end.

Definition places (d : gmap (string * string) node) : list (location * bool) :=
  concat ((λ entry, places_of entry.1 entry.2) <$> map_to_list d).

Definition is_directory_at (d : gmap (string * string) node) (loc : location)
  : bool :=
  always_there loc || bool_decide ((loc, true) ∈ places d).

Definition exists_at (d : gmap (string * string) node) (loc : location) : bool :=
  always_there loc || bool_decide (loc ∈ (places d).*1).

(** The system follows the parts one by one; it can only go up from a
    directory that is there.  (Symbolic links are not modelled.) *)
Fixpoint walk (d : gmap (string * string) node) (loc : location)
    (parts : list string) : option location :=
  match parts with
  | [] => Some loc
  | part :: rest =>
      if decide (part = "..")
      then if is_directory_at d loc then walk d (step loc part) rest else None
      else walk d (step loc part) rest
  end.

(** Whether [Path(base_dir) / name] is there: as an entry the file
    system lists under these very names, or as another way to write a
    place that the entries account for.  So [Path("out") / ""] is the
    directory [out] itself, and an absolute [name] is looked up from the
    root. *)
Definition path_present (d : gmap (string * string) node)
    (base_dir name : string) : bool :=
  bool_decide (is_Some (d !! (base_dir, name)))
  || match walk d ((joined base_dir name).1, []) (joined base_dir name).2 with
     | Some loc => exists_at d loc
     | None => false
     end.

(** [(Path(base_dir) / name).exists()] *)
Definition path_exists (base_dir name : string) : M bool :=
  w ← get_world;
  mret (path_present (fs w) base_dir name).

(** The [while] loop of [ensure_unique_path]; every turn takes four
    choices from the generator, so a bound of as many turns as there are
    choices left is never the one that stops it. *)
Fixpoint ensure_unique_loop (fuel : nat) (base_dir desired_name candidate : string)
  : M string :=
  taken ← path_exists base_dir candidate;
  if taken : bool then
    match fuel with
    | O => raise FuelExhausted
    | S fuel' =>
        suffix ← random_suffix 4;
        ensure_unique_loop fuel' base_dir desired_name
          (desired_name +:+ "_" +:+ suffix)
    end
  else mret candidate.

Definition ensure_unique_path (base_dir desired_name : string) : M string :=
  w ← get_world;
  ensure_unique_loop (length (rng w)) base_dir desired_name desired_name.

(* ================================================================== *)
(** * vector_store.py *)
(* ================================================================== *)

(** What the libraries and the disk do when [build] calls them. *)
Record storage_behaviour : Type := mkStorage {
  (* np.array(embeddings, dtype="float32"), faiss.IndexFlatL2(dim),
     IndexIDMap and add_with_ids all return *)
  index_accepts : nat → list pyvalue → bool;
  (* the row np.array(embeddings, dtype="float32") holds for one
     vector: its numbers as the nearest 32-bit floats *)
  as_float32 : pyvalue → pyvalue;
  (* store_dir.mkdir can create the directory *)
  mkdir_succeeds : bool;
  (* faiss.write_index returns *)
  write_index_succeeds : bool;
  (* metadata_file.open("w") returns *)
  open_metadata_succeeds : bool;
  (* json.dump returns *)
  dump_metadata_succeeds : bool
}.

Record VectorStoreBuilder : Type := mkBuilder {
  base_path : string;
  store_name : string
}.

(** [store_dir.mkdir(parents=True, exist_ok=True)]: the directory is
    listed; the directories on the way to it, which [parents=True]
    makes with it, are there by [places_of]. *)
Definition mkdir (disk : storage_behaviour) (base_dir name : string) : M unit :=
  w ← get_world;
  match fs w !! (base_dir, name) with
  | Some (Directory _) => mret tt
  | Some RegularFile => raise (PersistenceError AtMkdir)
  | None =>
      if mkdir_succeeds disk
      then put_fs (<[(base_dir, name) := Directory ∅]> (fs w))
      else raise (PersistenceError AtMkdir)
  end.

(** Put [content] under [file] in the directory [base_dir / name]. *)
Definition write_file (base_dir name file : string) (content : artifact)
    (stage : persistence_stage) : M unit :=
  w ← get_world;
  match fs w !! (base_dir, name) with
  | Some (Directory files) =>
      put_fs (<[(base_dir, name) := Directory (<[file := content]> files)]> (fs w))
  | _ => raise (PersistenceError stage)
  end.

(** The body of [for doc_id, doc in enumerate(documents)]. *)
Definition metadata_entry (doc_id : nat) (doc : Document) : gmap string pyvalue :=
  let entry := metadata doc in
  let entry := <["text" := PStr (text doc)]> entry in
  let entry := <["id" := PInt (Z.of_nat doc_id)]> entry in
  entry.

Definition build (disk : storage_behaviour) (self : VectorStoreBuilder)
    (documents : list Document) (embeddings : list pyvalue) : M string :=
  if decide (length documents ≠ length embeddings)
  then raise (CardinalityError (length documents) (length embeddings))
  else
    match embeddings with
    | [] => raise EmptyInputError
    | first :: _ =>
        dim ← or_raise (py_len first) IndexConstructionError;
        if negb (index_accepts disk dim embeddings)
        then raise IndexConstructionError
        else
          let vectors := as_float32 disk <$> embeddings in
          let ids := (λ i : nat, Z.of_nat i) <$> seq 0 (length vectors) in
          let index := mkIndex dim (zip ids vectors) in
          _ ← emit (EvIndex index);
          let metadata_list := imap metadata_entry documents in
          final_name ← ensure_unique_path (base_path self) (store_name self);
          _ ← mkdir disk (base_path self) final_name;
          _ ← (if write_index_succeeds disk
               then write_file (base_path self) final_name "index.faiss"
                      (IndexFile index) AtWriteIndex
               else raise (PersistenceError AtWriteIndex));
          _ ← (if open_metadata_succeeds disk
               then write_file (base_path self) final_name "metadata.json"
                      Truncated AtOpenMetadata
               else raise (PersistenceError AtOpenMetadata));
          _ ← (if dump_metadata_succeeds disk
               then write_file (base_path self) final_name "metadata.json"
                      (MetadataFile metadata_list) AtDumpMetadata
               else raise (PersistenceError AtDumpMetadata));
          mret final_name
    end.

(* ================================================================== *)
(** * cli.py *)
(* ================================================================== *)

Record GitSettings : Type := mkGitSettings {
  git_url : string;
  exclude_extensions : option (list string);
  include_extensions : option (list string);
  max_files : option Z;
  branch : option string
}.

Record ConfluenceSettings : Type := mkConfluenceSettings {
  confluence_url : string;
  user : string;
  token : string;
  space_key : string;
  max_pages : option Z
}.

Record AppConfig : Type := mkAppConfig {
  vector_store_path : string;
  vector_store_name : string;
  session_id : option string;
  files_location : option string;
  git_settings : option GitSettings;
  confluence_settings : option ConfluenceSettings;
  embedding_config : EmbeddingConfig
}.

Inductive path_kind : Type := IsFile | IsDir | Missing.

(** The collaborators of the collection stage: the file system that is
    read, the parser registry with its parsers, the repository and the
    wiki. *)
Record sources : Type := mkSources {
  (* os.path.isfile / os.path.isdir *)
  kind_of : string → path_kind;
  (* utils.list_files *)
  list_files : string → list string;
  (* factory.get_parser(path): None when the extension has no parser;
     otherwise what parser.parse(path) does: raises, or returns *)
  parse_file : string → option (option (list Document));
  (* GitRepositoryHandler(settings) can be constructed *)
  git_available : bool;
  (* after the clone: None when the clone, the checkout or a parser
     raised, otherwise the documents of the repository *)
  git_documents : GitSettings → option (list Document);
  (* ConfluenceSpaceHandler(settings) can be constructed *)
  confluence_available : bool;
  (* the documents of the pages that could be fetched *)
  confluence_documents : ConfluenceSettings → list Document
}.

(** [if s:] for an optional string: neither [None] nor empty. *)
Definition truthy (s : option string) : option string :=
  match s with
  | Some "" => None
  | _ => s
  end.

(** [for file_path in list_files(path)] *)
Fixpoint parse_files (src : sources) (paths : list string)
    (documents : list Document) : M (list Document) :=
  match paths with
  | [] => mret documents
  | file_path :: rest =>
      match parse_file src file_path with
      | None => parse_files src rest documents
      | Some None => raise SourceError
      | Some (Some docs) => parse_files src rest (documents ++ docs)
      end
  end.

(** [GitRepositoryHandler(settings).process()] *)
Definition git_process (src : sources) (settings : GitSettings)
  : M (list Document) :=
  if git_available src then
    _ ← emit (EvClone (git_url settings));
    or_raise (git_documents src settings) SourceError
  else raise SourceError.

(** [ConfluenceSpaceHandler(settings).process()] *)
Definition confluence_process (src : sources) (settings : ConfluenceSettings)
  : M (list Document) :=
  if confluence_available src then
    _ ← emit (EvListPages (space_key settings));
    mret (confluence_documents src settings)
  else raise SourceError.

(** [doc.metadata["session_id"] = config.session_id] *)
Definition attach_session (sid : string) (doc : Document) : Document :=
  mkDocument (text doc) (<["session_id" := PStr sid]> (metadata doc)).

Definition collect_documents (src : sources) (config : AppConfig)
  : M (list Document) :=
  let documents : list Document := [] in
  documents ←
    match truthy (files_location config) with
    | Some path =>
        match kind_of src path with
        | IsFile => parse_files src [path] documents
        | IsDir => parse_files src (list_files src path) documents
        | Missing => mret documents
        end
    | None => mret documents
    end;
  documents ←
    match git_settings config with
    | Some settings =>
        docs ← git_process src settings;
        mret (documents ++ docs)
    | None => mret documents
    end;
  documents ←
    match confluence_settings config with
    | Some settings =>
        docs ← confluence_process src settings;
        mret (documents ++ docs)
    | None => mret documents
    end;
  match documents with
  | [] => raise NoDocumentsError
  | _ =>
      match truthy (session_id config) with
      | Some sid => mret (attach_session sid <$> documents)
      | None => mret documents
      end
  end.

Definition run_pipeline (src : sources) (service : endpoint_behaviour)
    (disk : storage_behaviour) (config : AppConfig) : M string :=
  documents ← collect_documents src config;
  let texts := text <$> documents in
  embeddings ← embed_documents service (embedding_config config) texts;
  let builder := mkBuilder (vector_store_path config) (vector_store_name config) in
  build disk builder documents embeddings.

(* ================================================================== *)
(** * Vocabulary of the specification *)
(* ================================================================== *)

(** The batch [embed_documents] cuts at [start], and all of them in the
    order of the loop. *)
Definition batch_at (config : EmbeddingConfig) (documents : list string)
    (start : Z) : list string :=
  py_slice documents start (start + batch_size config).

Definition batches (config : EmbeddingConfig) (documents : list string)
  : list (list string) :=
  batch_at config documents
    <$> default [] (py_range 0 (Z.of_nat (length documents)) (batch_size config)).

(** The requests that sending [bs] leaves in the trace. *)
Definition posts (config : EmbeddingConfig) (bs : list (list string))
  : list event :=
  (λ batch, EvPost batch (make_payload config batch)) <$> bs.

(** The two shapes of a response item: a raw vector, or an object with
    the vector under ["embedding"]. *)
Definition raw_vector (item : pyvalue) : Prop :=
  ∃ items, item = PList items.

Definition wrapped_vector (item : pyvalue) : Prop :=
  ∃ fields v, item = PDict fields ∧ fields !! "embedding" = Some v.

Definition accepted_shape (item : pyvalue) : Prop :=
  raw_vector item ∨ wrapped_vector item.

(** [item] is one of the two shapes and the vector in it is [v]. *)
Definition carries (item v : pyvalue) : Prop :=
  (raw_vector item ∧ item = v)
  ∨ (∃ fields, item = PDict fields ∧ fields !! "embedding" = Some v).

(** A response to [batch] that is well-formed and has one vector per
    input. *)
Definition well_formed_response (batch : list string) (r : http_outcome) : Prop :=
  ∃ fields items,
    r = HttpJson (PDict fields) ∧ fields !! "data" = Some (PList items)
    ∧ Forall accepted_shape items ∧ length items = length batch.

(** A response to [batch] whose items carry, in order, the vectors [f]
    gives to the texts of the batch. *)
Definition answers_with (f : string → pyvalue) (batch : list string)
    (r : http_outcome) : Prop :=
  ∃ fields items,
    r = HttpJson (PDict fields) ∧ fields !! "data" = Some (PList items)
    ∧ Forall2 (λ t item, carries item (f t)) batch items.

(** The service answers every batch of this run well, whatever happened
    before. *)
Definition service_behaves (service : endpoint_behaviour)
    (config : EmbeddingConfig) (texts : list string) : Prop :=
  ∀ history batch, batch ∈ batches config texts →
    well_formed_response batch (service history (make_payload config batch)).

Definition service_computes (f : string → pyvalue) (service : endpoint_behaviour)
    (config : EmbeddingConfig) (texts : list string) : Prop :=
  ∀ history batch, batch ∈ batches config texts →
    answers_with f batch (service history (make_payload config batch)).

(** What one call leaves behind, and what it returns. *)
Definition after_post (config : EmbeddingConfig) (batch : list string)
    (w : world) : world :=
  mkWorld (fs w) (trace w ++ [EvPost batch (make_payload config batch)]) (rng w).

Definition outcome_of (batch : list string) (r : http_outcome)
  : error + list pyvalue :=
  match r with
  | HttpFailure => inl ServiceError
  | HttpJson data => parse_response batch data
  end.

(** [w] with [evs] added to its trace, and nothing else changed. *)
Definition after_events (evs : list event) (w : world) : world :=
  mkWorld (fs w) (trace w ++ evs) (rng w).

Definition with_rng (r : list nat) (w : world) : world :=
  mkWorld (fs w) (trace w) r.

(** Nothing is at [Path(base_dir) / name]. *)
Definition free (w : world) (base_dir name : string) : Prop :=
  path_present (fs w) base_dir name = false.

(** [final] is [desired_name], an underscore and four characters. *)
Definition suffixed (desired_name final : string) : Prop :=
  ∃ suffix, String.length suffix = 4%nat ∧ final = desired_name +:+ "_" +:+ suffix.

(** What [ensure_unique_path] returns in [w], and the generator it
    leaves. *)
Definition resolved (self : VectorStoreBuilder) (w : world) : error + string :=
  (ensure_unique_path (base_path self) (store_name self) w).2.

Definition rng_after_naming (self : VectorStoreBuilder) (w : world) : list nat :=
  rng (ensure_unique_path (base_path self) (store_name self) w).1.

(** The naming loop comes to an end. *)
Definition naming_ends (self : VectorStoreBuilder) (w : world) : Prop :=
  resolved self w ≠ inl FuelExhausted.

(** The index [build] fills: the ids [0 .. n-1] beside the rows of the
    array. *)
Definition built_index (vectors : list pyvalue) (d : nat) : faiss_index :=
  mkIndex d (zip ((λ i : nat, Z.of_nat i) <$> seq 0 (length vectors)) vectors).

(** The index the libraries make of [embeddings], if they make one. *)
Definition index_made (disk : storage_behaviour) (embeddings : list pyvalue)
  : option faiss_index :=
  match embeddings with
  | [] => None
  | first :: _ =>
      match py_len first with
      | Some d =>
          if index_accepts disk d embeddings
          then Some (built_index (as_float32 disk <$> embeddings) d) else None
      | None => None
      end
  end.

(** The directory can be made and every write goes through. *)
Definition disk_writes (disk : storage_behaviour) : Prop :=
  mkdir_succeeds disk = true ∧ write_index_succeeds disk = true
  ∧ open_metadata_succeeds disk = true ∧ dump_metadata_succeeds disk = true.

(** The files of the store directory when the writes stop, and the stage
    that stopped them. *)
Definition persisted (disk : storage_behaviour) (ix : faiss_index)
    (entries : list (gmap string pyvalue))
  : gmap string artifact * option persistence_stage :=
  if negb (write_index_succeeds disk) then (∅, Some AtWriteIndex)
  else if negb (open_metadata_succeeds disk)
  then ({["index.faiss" := IndexFile ix]}, Some AtOpenMetadata)
  else if negb (dump_metadata_succeeds disk)
  then (<["metadata.json" := Truncated]> {["index.faiss" := IndexFile ix]},
        Some AtDumpMetadata)
  else (<["metadata.json" := MetadataFile entries]> {["index.faiss" := IndexFile ix]},
        None).

(** A store directory with both artifacts. *)
Definition complete_store (ix : faiss_index) (entries : list (gmap string pyvalue))
  : node :=
  Directory (<["metadata.json" := MetadataFile entries]>
               {["index.faiss" := IndexFile ix]}).

(** The entries of the metadata file of the store [name], if it has
    one. *)
Definition stored_metadata (w : world) (base name : string)
  : option (list (gmap string pyvalue)) :=
  match fs w !! (base, name) with
  | Some (Directory files) =>
      match files !! "metadata.json" with
      | Some (MetadataFile entries) => Some entries
      | _ => None
      end
  | _ => None
  end.







(** The documents the sources give, before the orchestrator checks and
    stamps them. *)
Definition gather (src : sources) (config : AppConfig) : M (list Document) :=
  documents ←
    match truthy (files_location config) with
    | Some path =>
        match kind_of src path with
        | IsFile => parse_files src [path] []
        | IsDir => parse_files src (list_files src path) []
        | Missing => mret []
        end
    | None => mret []
    end;
  documents ←
    match git_settings config with
    | Some settings =>
        docs ← git_process src settings;
        mret (documents ++ docs)
    | None => mret documents
    end;
  match confluence_settings config with
  | Some settings =>
      docs ← confluence_process src settings;
      mret (documents ++ docs)
  | None => mret documents
  end.

(** The events of the collection stage. *)
Definition collection_event (ev : event) : Prop :=
  match ev with
  | EvClone _ | EvListPages _ => True
  | _ => False
  end.

(** The events that go over the network. *)
Definition network_call (ev : event) : bool :=
  match ev with
  | EvClone _ | EvListPages _ | EvPost _ _ => true
  | EvIndex _ => false
  end.

(** [config] with no session identifier. *)
Definition without_session (config : AppConfig) : AppConfig :=
  mkAppConfig (vector_store_path config) (vector_store_name config) None
    (files_location config) (git_settings config) (confluence_settings config)
    (embedding_config config).

(** A file that contributes no document. *)
Definition file_yields_nothing (src : sources) (path : string) : bool :=
  match parse_file src path with
  | None | Some (Some []) => true
  | _ => false
  end.

(** Every configured source returns, and none returns a document. *)
Definition sources_yield_nothing (src : sources) (config : AppConfig) : bool :=
  match truthy (files_location config) with
  | Some path =>
      match kind_of src path with
      | IsFile => file_yields_nothing src path
      | IsDir => forallb (file_yields_nothing src) (list_files src path)
      | Missing => true
      end
  | None => true
  end
  && match git_settings config with
     | Some settings =>
         git_available src
         && match git_documents src settings with Some [] => true | _ => false end
     | None => true
     end
  && match confluence_settings config with
     | Some settings =>
         confluence_available src
         && match confluence_documents src settings with [] => true | _ => false end
     | None => true
     end.

(** The words of the specification on a run that collects nothing: it
    fails with [NoDocumentsError] and has made no network call. *)
Definition fails_before_any_network_call (src : sources)
    (service : endpoint_behaviour) (disk : storage_behaviour)
    (config : AppConfig) (w : world) : Prop :=
  ∃ w', run_pipeline src service disk config w = (w', inl NoDocumentsError)
    ∧ ∀ ev, ev ∈ trace w' → network_call ev = true → ev ∈ trace w.

(** The two shapes in the words of the specification: a vector of
    numbers, or an object that carries one under ["embedding"]. *)
Definition is_number (v : pyvalue) : bool :=
  match v with
  | PInt _ | PFloat _ => true
  | _ => false
  end.

Definition vector_of_numbers (v : pyvalue) : Prop :=
  ∃ items, v = PList items ∧ Forall (λ item, is_number item = true) items.

Definition worded_shape (item : pyvalue) : Prop :=
  vector_of_numbers item
  ∨ ∃ fields v,
      item = PDict fields ∧ fields !! "embedding" = Some v ∧ vector_of_numbers v.

(** The words of the specification on the items of a response: an item
    of any other shape is refused. *)
Definition refuses_other_shapes : Prop :=
  ∀ item, ¬ worded_shape item → parse_item item = inl ResponseFormatError.

(* ================================================================== *)
(** * Sample inputs *)
(* ================================================================== *)

(** The vector the sample service gives to a text. *)
Definition sample_vector (t : string) : pyvalue :=
  PList [PInt (Z.of_nat (String.length t)); PInt 1].

(** A service that answers every input with its vector, wrapped in an
    object under ["embedding"]. *)
Definition sample_item (v : pyvalue) : pyvalue :=
  match v with
  | PStr t => PDict {["embedding" := sample_vector t]}
  | _ => PNone
  end.

Definition sample_service : endpoint_behaviour := λ _ payload,
  match payload !! "input" with
  | Some (PList inputs) => HttpJson (PDict {["data" := PList (sample_item <$> inputs)]})
  | _ => HttpFailure
  end.

(** A service that answers every request with a single raw vector. *)
Definition short_service : endpoint_behaviour := λ _ _,
  HttpJson (PDict {["data" := PList [PList [PInt 0; PInt 1]]]}).

(** A service whose vectors hold no number: a list with a string, and
    an object whose ["embedding"] is null. *)
Definition loose_service : endpoint_behaviour := λ _ _,
  HttpJson (PDict {["data" := PList [PList [PStr "x"];
                                     PDict {["embedding" := PNone]}]]}).

Definition sample_embedding_config : EmbeddingConfig :=
  mkEmbeddingConfig "http://localhost:8001/v1/embeddings" 2 ∅.

Definition five_texts : list string := ["a"; "bb"; "ccc"; "dddd"; "eeeee"].

Definition empty_world : world := mkWorld ∅ [] [].

(** A world whose generator will choose ["ABCD"]. *)
Definition world_with_choices : world := mkWorld ∅ [] [0; 1; 2; 3]%nat.

(** The nearest 32-bit float of an integer, ties to the even mantissa
    (for integers within the range of the format). *)
Definition float32_of_Z (z : Z) : Z :=
  let a := Z.abs z in
  if a <? 2 ^ 24 then z
  else
    let e := Z.log2 a - 23 in
    let q := a / 2 ^ e in
    let r := a mod 2 ^ e in
    let half := 2 ^ (e - 1) in
    let q' := if (half <? r) || ((r =? half) && Z.odd q) then q + 1 else q in
    Z.sgn z * (q' * 2 ^ e).

(** A stand-in for the conversion of numpy on the vectors of the
    samples, which hold integers. *)
Definition sample_float32 (v : pyvalue) : pyvalue :=
  match v with
  | PList items =>
      PList ((λ item, match item with
                      | PInt z => PFloat (QArith_base.Qmake (float32_of_Z z) 1)
                      | _ => item
                      end) <$> items)
  | _ => v
  end.

Definition healthy_disk : storage_behaviour :=
  mkStorage (λ _ _, true) sample_float32 true true true true.


Definition sample_builder : VectorStoreBuilder := mkBuilder "out" "store1".

Definition plain_document : Document :=
  mkDocument "alpha" {["file_path" := PStr "a.txt"]}.

(** A document whose metadata already has an ["id"] and a ["text"]. *)
Definition clashing_document : Document :=
  mkDocument "beta" (<["id" := PStr "x"]> {["text" := PStr "old"]}).

Definition sample_documents : list Document :=
  [plain_document; clashing_document].

Definition sample_embeddings : list pyvalue :=
  [PList [PInt 5; PInt 1]; PList [PInt 4; PInt 1]].

(** Sources in which only [a.txt] and [b.txt] exist, each parsed into
    one document; the repository and the wiki are empty. *)
Definition sample_sources : sources :=
  mkSources
    (λ path, if decide (path = "docs") then IsDir
             else if decide (path = "a.txt") then IsFile else Missing)
    (λ path, if decide (path = "docs") then ["a.txt"; "b.txt"; "c.exe"] else [])
    (λ path, if decide (path = "a.txt") then Some (Some [plain_document])
             else if decide (path = "b.txt") then Some (Some [clashing_document])
             else None)
    true (λ _, Some [])
    true (λ _, []).

Definition sample_git_settings : GitSettings :=
  mkGitSettings "https://example.org/repo.git" None None None None.

(** A run over the directory [docs], with a session identifier. *)
Definition sample_config : AppConfig :=
  mkAppConfig "out" "store1" (Some "session-1") (Some "docs") None None
    sample_embedding_config.

(** A run over an empty repository only. *)
Definition repository_config : AppConfig :=
  mkAppConfig "out" "store1" None None (Some sample_git_settings) None
    sample_embedding_config.

(* ================================================================== *)
(** * Vocabulary of the further properties *)
(* ================================================================== *)

(** Every character of [s] is one of [population]. *)
Definition drawn_from (population s : string) : Prop :=
  ∀ c, In c (String.list_ascii_of_string s) →
       In c (String.list_ascii_of_string population).

(** The parser chosen for [path] raises. *)
Definition parser_raises (src : sources) (path : string) : bool :=
  match parse_file src path with
  | Some None => true
  | _ => false
  end.

(** What [path] contributes: nothing when it has no parser. *)
Definition documents_of (src : sources) (path : string) : list Document :=
  match parse_file src path with
  | Some (Some docs) => docs
  | _ => []
  end.

(** The files the first block of [collect_documents] looks at. *)
Definition files_to_parse (src : sources) (config : AppConfig) : list string :=
  match truthy (files_location config) with
  | Some path =>
      match kind_of src path with
      | IsFile => [path]
      | IsDir => list_files src path
      | Missing => []
      end
  | None => []
  end.

(** What each source gives when it returns. *)
Definition filesystem_documents (src : sources) (config : AppConfig)
  : option (list Document) :=
  if existsb (parser_raises src) (files_to_parse src config) then None
  else Some (concat (documents_of src <$> files_to_parse src config)).

Definition repository_documents (src : sources) (config : AppConfig)
  : option (list Document) :=
  match git_settings config with
  | Some settings =>
      if git_available src then git_documents src settings else None
  | None => Some []
  end.

Definition wiki_documents (src : sources) (config : AppConfig)
  : option (list Document) :=
  match confluence_settings config with
  | Some settings =>
      if confluence_available src
      then Some (confluence_documents src settings) else None
  | None => Some []
  end.

(** The last step of [collect_documents]. *)
Definition stamped (config : AppConfig) (documents : list Document)
  : list Document :=
  match truthy (session_id config) with
  | Some sid => attach_session sid <$> documents
  | None => documents
  end.

Definition without_files_location (config : AppConfig) : AppConfig :=
  mkAppConfig (vector_store_path config) (vector_store_name config)
    (session_id config) None (git_settings config) (confluence_settings config)
    (embedding_config config).

(* ================================================================== *)
(** * The collaborators: git_parser.py, confluence_parser.py,
      factory.py, the parsers, and the constructor of Document *)
(* ================================================================== *)

(** The functions of the Python library these modules call are taken as
    they are: each is a variable of the section. *)
Section Library.
Variable lower : string → string.          (* str.lower *)
Variable suffix : string → string.         (* Path(p).suffix *)
Variable join : string → string → string.  (* str(Path(root) / name) *)
Variable path_str : string → string.       (* str(Path(p)) *)
Variable py_str : pyvalue → string.        (* str(v), also in an f-string *)
Variable strip : string → string.          (* str.strip *)

(** ** document.py *)

(** [Document(text=text, metadata=metadata)] with [__post_init__]: the
    dictionary is given as its items, in order; [None] stands for the
    [TypeError] of a text that is not a string. *)
Definition make_document (text : pyvalue) (metadata : list (pyvalue * pyvalue))
  : option Document :=
  match text with
  | PStr s =>
      Some (mkDocument s
              (foldl (λ (m : gmap string pyvalue) kv, <[py_str kv.1 := kv.2]> m)
                 ∅ metadata))
  | _ => None
  end.

(** ** git_parser.py *)

(** [[ext.lower() for ext in exts] if exts else None] *)
Definition lowered_extensions (exts : option (list string)) : option (list string) :=
  match exts with
  | None | Some [] => None
  | Some exts => Some (lower <$> exts)
  end.

(** The two tests of [iter_files] that end in [continue]. *)
Definition skipped (settings : GitSettings) (filename : string) : bool :=
  let ext := lower (suffix filename) in
  match lowered_extensions (exclude_extensions settings) with
  | Some exclude_exts => bool_decide (ext ∈ exclude_exts)
  | None => false
  end
  || match lowered_extensions (include_extensions settings) with
     | Some include_exts => negb (bool_decide (ext ∈ include_exts))
     | None => false
     end.

(** [self.settings.max_files and count >= self.settings.max_files] *)
Definition limit_reached (settings : GitSettings) (count : Z) : bool :=
  match max_files settings with
  | Some m => bool_decide (m ≠ 0) && bool_decide (m ≤ count)
  | None => false
  end.

(** The inner loop, over the files of one directory: what it yields,
    and the count to go on with, or [None] once the generator has
    returned. *)
Fixpoint iter_directory (settings : GitSettings) (root : string)
    (files : list string) (count : Z) : list string * option Z :=
  match files with
  | [] => ([], Some count)
  | filename :: rest =>
      if skipped settings filename
      then iter_directory settings root rest count
      else
        let count := count + 1 in
        if limit_reached settings count
        then ([join root filename], None)
        else
          let '(yielded, c) := iter_directory settings root rest count in
          (join root filename :: yielded, c)
  end.

(** The outer loop, over what [os.walk] gives: each directory with the
    names of its files. *)
Fixpoint iter_walk (settings : GitSettings) (walk : list (string * list string))
    (count : Z) : list string :=
  match walk with
  | [] => []
  | (root, files) :: rest =>
      match iter_directory settings root files count with
      | (yielded, None) => yielded
      | (yielded, Some count) => yielded ++ iter_walk settings rest count
      end
  end.

Definition iter_files (settings : GitSettings) (walk : list (string * list string))
  : list string :=
  iter_walk settings walk 0.

(** The files of one directory that pass the two filters, as the
    paths [iter_files] yields for them. *)
Definition kept_files (settings : GitSettings) (root : string)
    (files : list string) : list string :=
  join root <$> filter (λ filename, skipped settings filename = false) files.

(** The same over the whole walk, in its order. *)
Definition kept_paths (settings : GitSettings)
    (walk : list (string * list string)) : list string :=
  concat ((λ entry, kept_files settings entry.1 entry.2) <$> walk).

(** How many files [iter_files] yields at most: no bound without
    [max_files] or with 0; otherwise the test comes after the first
    yield, so the bound is never below one. *)
Definition files_limit (settings : GitSettings) : option nat :=
  match max_files settings with
  | Some m => if decide (m = 0) then None else Some (Z.to_nat (Z.max 1 m))
  | None => None
  end.

(** ** utils.py: list_files *)

(** [list_files(directory)], given whether the path is a directory and
    what [os.walk] finds under it. *)
Definition list_files_of_walk (is_dir : bool)
    (walk : list (string * list string)) : error + list string :=
  if negb is_dir then inl PyValueError
  else inr (concat ((λ entry : string * list string, join entry.1 <$> entry.2)
                      <$> walk)).

(** ** confluence_parser.py *)

(** The answers of the wiki: the listing of the space ([None] when it
    raises), and the page for an id ([None] when it raises). *)
Record confluence_client : Type := mkClient {
  all_pages : option (list (gmap string pyvalue));
  page_by_id : pyvalue → option pyvalue
}.

(** [v.get(key, default)]; [None] stands for the [AttributeError] of a
    value that is not a dictionary. *)
Definition value_get (v : pyvalue) (key : string) (dflt : pyvalue)
  : option pyvalue :=
  match v with
  | PDict fields => Some (default dflt (fields !! key))
  | _ => None
  end.

(** The body of the [try] for one page; [None] when it raises.
    [html_to_text] is [_html_to_text], which is BeautifulSoup's. *)
Definition page_document (html_to_text : pyvalue → option string)
    (settings : ConfluenceSettings) (client : confluence_client)
    (page : gmap string pyvalue) : option Document :=
  let page_id := default PNone (page !! "id") in
  let title := default (PStr "") (page !! "title") in
  page_data ← page_by_id client page_id;
  body ← value_get page_data "body" (PDict ∅);
  storage_field ← value_get body "storage" (PDict ∅);
  storage ← value_get storage_field "value" (PStr "");
  text ← html_to_text storage;
  Some (mkDocument text
          (<["page_id" := page_id]>
             (<["title" := title]>
                (<["space_key" := PStr (space_key settings)]>
                   {["url" := PStr (confluence_url settings +:+ "/pages/"
                                      +:+ py_str page_id)]})))).

(** [max_pages = self.settings.max_pages or float("inf")]: [None] is
    the infinity. *)
Definition max_pages_or_inf (settings : ConfluenceSettings) : option Z :=
  match max_pages settings with
  | Some m => if decide (m = 0) then None else Some m
  | None => None
  end.

(** [for page in pages] *)
Fixpoint fetch_pages (html_to_text : pyvalue → option string)
    (settings : ConfluenceSettings) (client : confluence_client)
    (pages : list (gmap string pyvalue)) (count : Z) (documents : list Document)
  : list Document :=
  match pages with
  | [] => documents
  | page :: rest =>
      if match max_pages_or_inf settings with
         | Some m => bool_decide (m ≤ count)
         | None => false
         end
      then documents
      else
        match page_document html_to_text settings client page with
        | Some doc =>
            fetch_pages html_to_text settings client rest (count + 1)
              (documents ++ [doc])
        | None => fetch_pages html_to_text settings client rest count documents
        end
  end.

(** [ConfluenceSpaceHandler.process] *)
Definition confluence_pages (html_to_text : pyvalue → option string)
    (settings : ConfluenceSettings) (client : confluence_client) : list Document :=
  match all_pages client with
  | None => []
  | Some pages => fetch_pages html_to_text settings client pages 0 []
  end.

(** ** factory.py *)

Inductive parser_class : Type :=
  | TextParser | CSVParser | ExcelParser | PDFParser | WordParser | ImageParser.

(** [ParserFactory._parsers] *)
Definition registered_parsers : gmap string parser_class :=
  list_to_map
    [(".txt", TextParser); (".md", TextParser);
     (".csv", CSVParser); (".tsv", CSVParser);
     (".xlsx", ExcelParser); (".xls", ExcelParser);
     (".pdf", PDFParser);
     (".docx", WordParser); (".doc", WordParser);
     (".png", ImageParser); (".jpg", ImageParser); (".jpeg", ImageParser);
     (".tiff", ImageParser); (".bmp", ImageParser)].

Definition get_parser (file_path : string) : option parser_class :=
  let ext := lower (suffix file_path) in
  registered_parsers !! ext.

(** ** The parsers *)

(** A frame of pandas: its columns and the values of its rows. *)
Record data_frame : Type := mkFrame {
  columns : list pyvalue;
  frame_rows : list (list pyvalue)
}.

(** What [extract_text] does for a page: raises, or returns [None] or
    a string. *)
Inductive extraction : Type :=
  | ExtractRaises
  | Extracted (text : option string).

(** What [PdfReader] gives: the number of pages it announces, and the
    pages the loop gets to before it ends, normally or in an
    exception. *)
Record pdf_reader : Type := mkReader {
  num_pages : Z;
  pages_read : list extraction
}.

(** A document of python-docx: the texts of its paragraphs, and its
    tables as rows of cell texts. *)
Record word_document : Type := mkWord {
  paragraphs : list string;
  tables : list (list (list string))
}.

(** What the parsers find on the disk and in the libraries; [None] is
    always the call that raises. *)
Record parser_environment : Type := mkParserEnv {
  is_file : string → bool;                      (* path.is_file() *)
  read_text : string → option string;           (* open and f.read() *)
  read_csv : string → option data_frame;        (* pd.read_csv *)
  excel_open : string → option (list (string * option data_frame));
    (* pd.ExcelFile: the sheet names in order, each with xls.parse *)
  pypdf2_installed : bool;
  pdf_open : string → option pdf_reader;        (* open, PdfReader, len *)
  textract_installed : bool;
  textract_process : string → option string;    (* process and decode *)
  docx_installed : bool;
  docx_open : string → option word_document;    (* docx.Document *)
  ocr_installed : bool;                         (* PIL and pytesseract *)
  tesseract_works : bool;                       (* get_tesseract_version *)
  ocr : string → option string                  (* Image.open, image_to_string *)
}.

Variable lstrip_dot : string → string.          (* s.lstrip(".") *)

(** [sep.join(parts)] *)
Fixpoint py_join (sep : string) (parts : list string) : string :=
  match parts with
  | [] => ""
  | [part] => part
  | part :: rest => part +:+ sep +:+ py_join sep rest
  end.

Definition newline : string := String "010"%char "".
Definition tab : string := String "009"%char "".

(** [TextParser.parse] *)
Definition text_parse (env : parser_environment) (file_path : string)
  : list Document :=
  if negb (is_file env file_path) then []
  else
    match read_text env file_path with
    | None => []
    | Some content =>
        [mkDocument content {["file_path" := PStr (path_str file_path)]}]
    end.

(** The serialisation of a frame, the same in [CSVParser] and
    [ExcelParser]. *)
Definition serialise (df : data_frame) : string :=
  let content_lines :=
    py_join "," (py_str <$> columns df)
    :: ((λ row : list pyvalue,
           py_join ","
             ((λ x, match x with PNone => "" | _ => py_str x end) <$> row))
          <$> frame_rows df) in
  py_join newline content_lines.

(** [CSVParser.parse] *)
Definition csv_parse (env : parser_environment) (file_path : string)
  : list Document :=
  if negb (is_file env file_path) then []
  else
    match read_csv env file_path with
    | None => []
    | Some df =>
        [mkDocument (serialise df) {["file_path" := PStr (path_str file_path)]}]
    end.

(** The document of one sheet. *)
Definition sheet_document (file_path sheet_name : string) (df : data_frame)
  : Document :=
  mkDocument (serialise df)
    (<["file_path" := PStr (path_str file_path)]>
       {["sheet_name" := PStr sheet_name]}).

(** [for sheet_name in xls.sheet_names] *)
Fixpoint excel_sheets (file_path : string)
    (sheets : list (string * option data_frame)) (documents : list Document)
  : list Document :=
  match sheets with
  | [] => documents
  | (sheet_name, None) :: rest => excel_sheets file_path rest documents
  | (sheet_name, Some df) :: rest =>
      excel_sheets file_path rest
        (documents ++ [sheet_document file_path sheet_name df])
  end.

(** [ExcelParser.parse] *)
Definition excel_parse (env : parser_environment) (file_path : string)
  : list Document :=
  if negb (is_file env file_path) then []
  else
    match excel_open env file_path with
    | None => []
    | Some sheets => excel_sheets file_path sheets []
    end.

(** [text = page.extract_text() or ""], and "" when it raises. *)
Definition page_text (page : extraction) : string :=
  match page with
  | Extracted (Some s) => s
  | _ => ""
  end.

Definition pdf_page_document (file_path : string) (announced : Z) (idx : Z)
    (page : extraction) : Document :=
  mkDocument (page_text page)
    (<["file_path" := PStr (path_str file_path)]>
       (<["page_number" := PInt (idx + 1)]>
          {["num_pages" := PInt announced]})).

(** [for idx, page in enumerate(reader.pages)] *)
Fixpoint pdf_pages (file_path : string) (announced : Z)
    (pages : list extraction) (idx : Z) (documents : list Document)
  : list Document :=
  match pages with
  | [] => documents
  | page :: rest =>
      pdf_pages file_path announced rest (idx + 1)
        (documents ++ [pdf_page_document file_path announced idx page])
  end.

(** [PDFParser.parse] *)
Definition pdf_parse (env : parser_environment) (file_path : string)
  : list Document :=
  if negb (pypdf2_installed env) then []
  else if negb (is_file env file_path) then []
  else
    match pdf_open env file_path with
    | None => []
    | Some reader =>
        pdf_pages file_path (num_pages reader) (pages_read reader) 0 []
    end.

(** [WordParser._parse_doc] *)
Definition parse_doc (env : parser_environment) (file_path : string)
  : list Document :=
  if negb (textract_installed env) then []
  else
    match textract_process env file_path with
    | None => []
    | Some content =>
        [mkDocument content
           (<["file_path" := PStr (path_str file_path)]>
              {["format" := PStr "doc"]})]
    end.

(** The two loops of [_parse_docx] that fill [text_parts]. *)
Definition docx_text_parts (doc : word_document) : list string :=
  filter (λ para_text, para_text ≠ "") (paragraphs doc)
  ++ filter (λ row_text, row_text ≠ "")
       ((λ row : list string,
           py_join tab (filter (λ cell, cell ≠ "") (strip <$> row)))
          <$> concat (tables doc)).

(** [WordParser._parse_docx] *)
Definition parse_docx (env : parser_environment) (file_path : string)
  : list Document :=
  if negb (docx_installed env) then []
  else
    match docx_open env file_path with
    | None => []
    | Some doc =>
        [mkDocument (py_join newline (docx_text_parts doc))
           (<["file_path" := PStr (path_str file_path)]>
              {["format" := PStr "docx"]})]
    end.

(** [WordParser.parse] *)
Definition word_parse (env : parser_environment) (file_path : string)
  : list Document :=
  let suffix := lower (suffix file_path) in
  if negb (bool_decide (suffix ∈ [".docx"; ".doc"])) then []
  else if negb (is_file env file_path) then []
  else if decide (suffix = ".doc") then parse_doc env file_path
  else parse_docx env file_path.

(** [ImageParser._supported_exts] *)
Definition image_supported_exts : list string :=
  [".png"; ".jpg"; ".jpeg"; ".tiff"; ".bmp"].

(** [ImageParser.parse] *)
Definition image_parse (env : parser_environment) (file_path : string)
  : list Document :=
  let suffix := lower (suffix file_path) in
  if negb (bool_decide (suffix ∈ image_supported_exts)) then []
  else if negb (is_file env file_path) then []
  else if negb (ocr_installed env) then []
  else if negb (tesseract_works env) then []
  else
    match ocr env file_path with
    | None => []
    | Some text =>
        [mkDocument text
           (<["file_path" := PStr (path_str file_path)]>
              {["format" := PStr (lstrip_dot suffix)]})]
    end.

(** [parser.parse(file_path)] for an instance of each class. *)
Definition parse_with (env : parser_environment) (cls : parser_class)
    (file_path : string) : list Document :=
  match cls with
  | TextParser => text_parse env file_path
  | CSVParser => csv_parse env file_path
  | ExcelParser => excel_parse env file_path
  | PDFParser => pdf_parse env file_path
  | WordParser => word_parse env file_path
  | ImageParser => image_parse env file_path
  end.

(** The loop of [GitRepositoryHandler.process] over the files of the
    clone: files without a parser are passed over. *)
Definition process_files (env : parser_environment) (settings : GitSettings)
    (walk : list (string * list string)) : list Document :=
  concat ((λ file_path,
             match get_parser file_path with
             | None => []
             | Some cls => parse_with env cls file_path
             end) <$> iter_files settings walk).

End Library.

(* ================================================================== *)
(** * Sample inputs for the collaborators *)
(* ================================================================== *)

(** A service whose second call fails. *)
Definition failing_second_service : endpoint_behaviour := λ history payload,
  if decide (length history = 1%nat) then HttpFailure
  else sample_service history payload.

(** A run over the directory [docs] with a batch size of zero. *)
Definition zero_batch_config : AppConfig :=
  mkAppConfig "out" "store1" None (Some "docs") None None
    (mkEmbeddingConfig "http://localhost:8001/v1/embeddings" 0 ∅).

(** Stand-ins for the library, right on the names of the samples:
    lower case of the letters A to Z, the extension as the text from
    the last dot, and a path joined with a slash. *)
Definition ascii_lower (c : ascii) : ascii :=
  let n := nat_of_ascii c in
  if (65 <=? n)%nat && (n <=? 90)%nat then ascii_of_nat (n + 32) else c.

Fixpoint sample_lower (s : string) : string :=
  match s with
  | EmptyString => EmptyString
  | String c rest => String (ascii_lower c) (sample_lower rest)
  end.

Fixpoint from_last_dot (s : string) : option string :=
  match s with
  | EmptyString => None
  | String c rest =>
      match from_last_dot rest with
      | Some found => Some found
      | None => if Ascii.eqb c "."%char then Some s else None
      end
  end.

Definition sample_suffix (s : string) : string := default "" (from_last_dot s).

Definition sample_join (root name : string) : string := root +:+ "/" +:+ name.

Definition sample_path_str (path : string) : string := path.

Definition sample_py_str (v : pyvalue) : string :=
  match v with
  | PStr s => s
  | _ => ""
  end.

Definition sample_strip (s : string) : string := s.

Definition sample_lstrip_dot (s : string) : string :=
  match s with
  | String "." rest => rest
  | _ => s
  end.

(** A repository of four files in two directories; executables are
    excluded, text and markdown included, two files at most. *)
Definition filtering_settings : GitSettings :=
  mkGitSettings "https://example.org/repo.git" (Some [".exe"])
    (Some [".TXT"; ".md"]) (Some 2) None.

Definition sample_walk : list (string * list string) :=
  [("repo", ["a.txt"; "b.exe"; "README.MD"]); ("repo/src", ["c.txt"])].

(** A workbook whose second sheet cannot be parsed, a PDF whose second
    page cannot be extracted and whose third is empty, and text files
    that all read ["alpha"]. *)
Definition sample_frame : data_frame :=
  mkFrame [PStr "name"; PStr "age"] [[PStr "Ann"; PNone]].

Definition sample_sheets : list (string * option data_frame) :=
  [("first", Some sample_frame); ("second", None); ("third", Some sample_frame)].

Definition sample_reader : pdf_reader :=
  mkReader 3 [Extracted (Some "one"); ExtractRaises; Extracted None].

Definition sample_parser_environment : parser_environment :=
  mkParserEnv (λ _, true) (λ _, Some "alpha") (λ _, Some sample_frame)
    (λ _, Some sample_sheets) true (λ _, Some sample_reader)
    true (λ _, Some "legacy") true (λ _, Some (mkWord ["title"; ""] [[["a"; ""; "b"]]]))
    true true (λ _, Some "scanned").

Definition repository_text_document : Document :=
  mkDocument "alpha" {["file_path" := PStr "repo/a.txt"]}.

(** A wiki of two pages, the second of which cannot be fetched. *)
Definition sample_page (page_id title : string) : gmap string pyvalue :=
  <["id" := PStr page_id]> {["title" := PStr title]}.

Definition sample_client : confluence_client :=
  mkClient (Some [sample_page "1" "Home"; sample_page "2" "Lost"])
    (λ page_id,
       match page_id with
       | PStr "1" =>
           Some (PDict {["body" :=
                   PDict {["storage" := PDict {["value" := PStr "welcome"]}]}]})
       | _ => None
       end).

Definition sample_html_to_text (html : pyvalue) : option string :=
  match html with
  | PStr s => Some s
  | _ => None
  end.

Definition sample_confluence_settings : ConfluenceSettings :=
  mkConfluenceSettings "https://wiki.example.org" "user" "token" "DOC" None.

Definition home_page_document : Document :=
  mkDocument "welcome"
    (<["page_id" := PStr "1"]>
       (<["title" := PStr "Home"]>
          (<["space_key" := PStr "DOC"]>
             {["url" := PStr "https://wiki.example.org/pages/1"]}))).

(* ================================================================== *)
(** * Proof tools *)
(* ================================================================== *)

Ltac run_M :=
  unfold mbind, M_bind, mret, M_ret, raise, get_world, emit, put_fs, put_rng,
    or_raise, path_exists in *; simpl in *.

Lemma bind_run {A B : Type} (m : M A) (f : A → M B) (w : world) :
  (m ≫= f) w
  = match m w with
    | (w', inl e) => (w', inl e)
    | (w', inr a) => f a w'
    end.
Proof. done. Qed.

Lemma after_events_nil (w : world) : after_events [] w = w.
Proof. unfold after_events. rewrite app_nil_r. by destruct w. Qed.

Lemma after_events_app (evs evs' : list event) (w : world) :
  after_events evs' (after_events evs w) = after_events (evs ++ evs') w.
Proof. unfold after_events. simpl. by rewrite app_assoc. Qed.

Lemma elem_of_concat_pieces {A : Type} (x : A) (pieces : list (list A)) :
  x ∈ concat pieces ↔ ∃ piece, x ∈ piece ∧ piece ∈ pieces.
Proof.
  induction pieces as [|piece rest IH]; simpl.
  - split; [by intros ?%elem_of_nil|by intros (? & _ & ?%elem_of_nil)].
  - rewrite elem_of_app, IH. split.
    + intros [Hin|(p & Hin & Hp)].
      * exists piece. split; [done|]. apply list_elem_of_here.
      * exists p. split; [done|]. by apply list_elem_of_further.
    + intros (p & Hin & Hp). apply elem_of_cons in Hp as [->|Hp].
      * by left.
      * right. by exists p.
Qed.

(* ================================================================== *)
(** * Slices and ranges *)
(* ================================================================== *)

Section Slices.
Context {A : Type}.
Implicit Types l : list A.

Lemma py_slice_forward l (lo hi : Z) :
  0 ≤ lo → lo ≤ hi →
  py_slice l lo hi = take (Z.to_nat (hi - lo)) (drop (Z.to_nat lo) l).
Proof.
  intros Hlo Hhi. unfold py_slice, py_slice_bound.
  repeat case_decide; try lia.
  destruct (decide (Z.of_nat (length l) ≤ lo)) as [Hge|Hlt].
  - rewrite !drop_ge by lia. by rewrite !take_nil.
  - replace (Z.to_nat (lo `min` Z.of_nat (length l))) with (Z.to_nat lo) by lia.
    destruct (decide (hi ≤ Z.of_nat (length l))) as [Hh|Hh].
    + f_equal. lia.
    + rewrite !take_ge; [done | |]; rewrite length_drop; lia.
Qed.

Lemma take_plus_drop l (a c : nat) :
  take (a + c) l = take a l ++ take c (drop a l).
Proof.
  revert l. induction a as [|a IH]; intros [|x l]; simpl; try done.
  - by rewrite take_nil.
  - by rewrite IH.
Qed.

(** The pieces of width [b] cut at [k*b], [(k+1)*b], ... put back
    together. *)
Lemma concat_pieces l (b k m : nat) :
  concat ((λ j : nat, take b (drop (j * b) l)) <$> seq k m)
  = take (m * b) (drop (k * b) l).
Proof.
  revert k. induction m as [|m IH]; intros k; simpl; [done|].
  rewrite IH, take_plus_drop, drop_drop. do 3 f_equal. lia.
Qed.
End Slices.

Lemma py_range_forward (n b : Z) :
  0 ≤ n → 0 < b →
  py_range 0 n b
  = Some ((λ j : nat, Z.of_nat j * b) <$> seq 0 (Z.to_nat ((n + b - 1) / b))).
Proof.
  intros Hn Hb. unfold py_range, py_range_length.
  repeat case_decide; try lia; do 3 f_equal.
  - replace (n + b - 1) with ((n - 0 - 1) + 1 * b) by lia.
    by rewrite Z.div_add by lia.
  - replace n with 0 by lia. rewrite Z.div_small; lia.
Qed.

Lemma concat_lengths {A B : Type} (P : list A → list B → Prop)
    (ls : list (list A)) (ks : list (list B)) :
  Forall2 P ls ks → (∀ l k, P l k → length k = length l) →
  length (concat ks) = length (concat ls).
Proof.
  intros H HP. induction H as [|l k ls ks Hlk _ IH]; simpl; [done|].
  rewrite !length_app, IH. f_equal. by apply HP.
Qed.

Lemma fmap_concat_pieces {A B : Type} (f : A → B) (ls : list (list A)) :
  f <$> concat ls = concat ((λ l : list A, f <$> l) <$> ls).
Proof.
  induction ls as [|l ls IH]; simpl; [done|]. by rewrite fmap_app, IH.
Qed.

(* ================================================================== *)
(** * The batches of a run *)
(* ================================================================== *)

Section Batches.
Variable config : EmbeddingConfig.
Variable texts : list string.
Hypothesis batch_size_pos : 0 < batch_size config.

Local Abbreviation b := (Z.to_nat (batch_size config)).
Local Abbreviation m :=
  (Z.to_nat ((Z.of_nat (length texts) + batch_size config - 1) / batch_size config)).

Lemma batch_at_multiple (j : nat) :
  batch_at config texts (Z.of_nat j * batch_size config)
  = take b (drop (j * b) texts).
Proof.
  unfold batch_at. rewrite py_slice_forward by lia.
  f_equal; [f_equal; lia | f_equal; lia].
Qed.

Lemma batches_pieces :
  batches config texts = (λ j : nat, take b (drop (j * b) texts)) <$> seq 0 m.
Proof.
  unfold batches. rewrite py_range_forward by lia. simpl.
  rewrite <- list_fmap_compose. apply list_fmap_ext.
  intros _ j _. simpl. apply batch_at_multiple.
Qed.

Lemma ceiling_bounds :
  (Z.of_nat (length texts) ≤ Z.of_nat m * batch_size config)
  ∧ (Z.of_nat m * batch_size config < Z.of_nat (length texts) + batch_size config)
  ∧ (texts ≠ [] → (0 < m)%nat).
Proof.
  set (n := Z.of_nat (length texts)). set (c := batch_size config) in *.
  assert (0 ≤ n) by lia.
  assert (0 ≤ (n + c - 1) / c) by (apply Z.div_pos; lia).
  rewrite Z2Nat.id by done.
  pose proof (Z.mul_div_le (n + c - 1) c ltac:(lia)) as Hle.
  pose proof (Z.mul_succ_div_gt (n + c - 1) c ltac:(lia)) as Hgt.
  split; [nia|]. split; [nia|]. intros Hne.
  assert (0 < n) by (destruct texts; [done | simpl in *; lia]).
  assert (0 < (n + c - 1) / c) by (apply Z.div_str_pos; lia). lia.
Qed.

Lemma batches_concat : concat (batches config texts) = texts.
Proof.
  rewrite batches_pieces, concat_pieces. simpl. rewrite drop_0.
  apply take_ge. pose proof ceiling_bounds as [H _]. nia.
Qed.

Lemma batches_count :
  Z.of_nat (length (batches config texts))
  = (Z.of_nat (length texts) + batch_size config - 1) / batch_size config.
Proof.
  rewrite batches_pieces, length_fmap, length_seq. idtac.
  apply Z2Nat.id, Z.div_pos; lia.
Qed.

Lemma batches_lookup (k : nat) (batch : list string) :
  batches config texts !! k = Some batch →
  (k < m)%nat ∧ batch = take b (drop (k * b) texts).
Proof.
  rewrite batches_pieces, list_lookup_fmap.
  destruct (seq 0 m !! k) as [j|] eqn:Hj; simpl; [|done].
  apply lookup_seq in Hj as [-> ?]. intros [= <-]. done.
Qed.

Lemma batches_at_most (batch : list string) :
  batch ∈ batches config texts → Z.of_nat (length batch) ≤ batch_size config.
Proof.
  intros [k Hk]%list_elem_of_lookup. apply batches_lookup in Hk as [_ ->].
  rewrite length_take. lia.
Qed.

Lemma batches_full (k : nat) (batch : list string) :
  batches config texts !! k = Some batch →
  (S k < length (batches config texts))%nat →
  Z.of_nat (length batch) = batch_size config.
Proof.
  intros Hk Hlt. pose proof batches_count as Hc.
  apply batches_lookup in Hk as [_ ->].
  rewrite length_take, length_drop.
  pose proof ceiling_bounds as (_ & Hup & _).
  rewrite batches_pieces, length_fmap, length_seq in Hlt.
  nia.
Qed.

Lemma batches_last (batch : list string) :
  last (batches config texts) = Some batch →
  Z.of_nat (length batch)
  = if decide (Z.of_nat (length texts) `mod` batch_size config = 0)
    then batch_size config
    else Z.of_nat (length texts) `mod` batch_size config.
Proof.
  rewrite last_lookup. intros Hk.
  assert (texts ≠ []) as Hne.
  { intros Hnil. rewrite batches_pieces, Hnil in Hk. simpl in Hk.
    rewrite Z.div_small in Hk by lia. done. }
  pose proof ceiling_bounds as (Hlo & Hup & Hm).
  specialize (Hm Hne).
  assert (length (batches config texts) = m) as Hlen
    by (by rewrite batches_pieces, length_fmap, length_seq).
  rewrite Hlen in Hk. apply batches_lookup in Hk as [_ ->].
  rewrite length_take, length_drop.
  set (n := Z.of_nat (length texts)) in *. set (c := batch_size config) in *.
  pose proof (Z.div_mod n c ltac:(lia)) as Hdm.
  pose proof (Z.mod_pos_bound n c ltac:(lia)) as Hmod.
  assert (0 ≤ n / c) by (apply Z.div_pos; lia).
  assert (0 ≤ (n + c - 1) / c) as Hnn by (apply Z.div_pos; lia).
  pose proof (Z2Nat.id _ Hnn) as Hmm.
  set (mm := Z.to_nat ((n + c - 1) / c)) in *.
  set (q := n / c) in *. set (r := n `mod` c) in *.
  case_decide as Hz.
  - assert (q = (n + c - 1) / c) as Hq
      by (apply (Z.div_unique _ _ _ (c - 1)); lia).
    rewrite <- Hq in Hmm. nia.
  - assert (q + 1 = (n + c - 1) / c) as Hq
      by (apply (Z.div_unique _ _ _ (r - 1)); lia).
    rewrite <- Hq in Hmm. nia.
Qed.
End Batches.

Lemma batches_starts config (texts : list string) :
  0 < batch_size config →
  batches config texts
  = batch_at config texts
      <$> ((λ j : nat, Z.of_nat j * batch_size config)
             <$> seq 0 (Z.to_nat ((Z.of_nat (length texts) + batch_size config - 1)
                                  / batch_size config))).
Proof. intros Hb. unfold batches. by rewrite py_range_forward by lia. Qed.

Lemma make_payload_input config (batch : list string) :
  model_kwargs config !! "input" = None →
  make_payload config batch !! "input" = Some (PList (PStr <$> batch)).
Proof.
  intros Hno. unfold make_payload.
  rewrite lookup_union_r by done. apply lookup_singleton_eq.
Qed.

(* ================================================================== *)
(** * Parsing a response *)
(* ================================================================== *)

Lemma parse_item_carries (item v : pyvalue) :
  carries item v → parse_item item = inr v.
Proof.
  intros [[[items ->] <-]|(fields & -> & Hv)]; simpl; [done|]. by rewrite Hv.
Qed.

Lemma accepted_shape_carries (item : pyvalue) :
  accepted_shape item ↔ ∃ v, carries item v.
Proof.
  split.
  - intros [Hraw|(fields & v & -> & Hv)].
    + exists item. by left.
    + exists v. right. eauto.
  - intros [v [[Hraw _]|(fields & -> & Hv)]]; [by left|].
    right. by exists fields, v.
Qed.

Lemma parse_item_accepts (item : pyvalue) :
  accepted_shape item ↔ ∃ v, parse_item item = inr v.
Proof.
  split.
  - intros [v Hv]%accepted_shape_carries. exists v. by apply parse_item_carries.
  - intros [v Hv]. destruct item; simpl in Hv; try discriminate.
    + left. by eexists.
    + right. destruct (fields !! "embedding") as [v'|] eqn:E; [|discriminate].
      by exists fields, v'.
Qed.

Lemma parse_item_refuses (item : pyvalue) :
  ¬ accepted_shape item → parse_item item = inl ResponseFormatError.
Proof.
  intros Hno. destruct item; simpl; try done.
  - destruct Hno. left. by eexists.
  - destruct (fields !! "embedding") as [v|] eqn:E; [|done].
    destruct Hno. right. by exists fields, v.
Qed.

Lemma parse_items_accepts (items : list pyvalue) :
  Forall accepted_shape items →
  ∃ vs, parse_items items = inr vs ∧ length vs = length items.
Proof.
  induction 1 as [|item items [v Hv]%parse_item_accepts _ (vs & Hvs & Hlen)]; simpl.
  - by exists [].
  - rewrite Hv, Hvs. exists (v :: vs). simpl. by rewrite Hlen.
Qed.

Lemma parse_items_refuses (items : list pyvalue) :
  ¬ Forall accepted_shape items → parse_items items = inl ResponseFormatError.
Proof.
  induction items as [|item items IH]; intros Hno; simpl.
  - destruct Hno. constructor.
  - destruct (parse_item item) as [e|v] eqn:Hitem.
    + destruct item; simpl in Hitem; try congruence.
      destruct (fields !! "embedding"); congruence.
    + rewrite IH; [done|]. intros Hall. apply Hno. constructor; [|done].
      apply parse_item_accepts. eauto.
Qed.


Lemma parse_items_carried (f : string → pyvalue) (batch : list string)
    (items : list pyvalue) :
  Forall2 (λ t item, carries item (f t)) batch items →
  parse_items items = inr (f <$> batch).
Proof.
  induction 1 as [|t item batch items Hc%parse_item_carries _ IH]; simpl; [done|].
  by rewrite Hc, IH.
Qed.

Lemma parse_response_well_formed (batch : list string) (data : pyvalue) :
  well_formed_response batch (HttpJson data) →
  ∃ vs, parse_response batch data = inr vs ∧ length vs = length batch.
Proof.
  intros (fields & items & [= ->] & Hdata & Hall & Hlen).
  apply parse_items_accepts in Hall as (vs & Hvs & Hlen').
  exists vs. unfold parse_response. rewrite Hdata. simpl. rewrite Hvs.
  rewrite decide_False by congruence. split; congruence.
Qed.

Lemma parse_response_answers (f : string → pyvalue) (batch : list string)
    (data : pyvalue) :
  answers_with f batch (HttpJson data) →
  parse_response batch data = inr (f <$> batch).
Proof.
  intros (fields & items & [= ->] & Hdata & Hall).
  unfold parse_response. rewrite Hdata. simpl.
  rewrite (parse_items_carried f batch) by done.
  by rewrite decide_False by (rewrite length_fmap; tauto).
Qed.


(* ================================================================== *)
(** * The loop of embed_documents *)
(* ================================================================== *)

Section Loop.
Variable service : endpoint_behaviour.
Variable config : EmbeddingConfig.

Lemma embed_batch_run (batch : list string) (w : world) :
  embed_batch service config batch w
  = (after_post config batch w,
     outcome_of batch (service (trace w) (make_payload config batch))).
Proof.
  unfold embed_batch, mbind, M_bind, get_world, emit, after_post, outcome_of.
  simpl. destruct (service _ _) as [|data]; [done|].
  by destruct (parse_response batch data).
Qed.

Lemma embed_loop_step (documents : list string) (start : Z) (starts : list Z)
    (acc : list pyvalue) (w : world) :
  embed_loop service config documents (start :: starts) acc w
  = match embed_batch service config (batch_at config documents start) w with
    | (w', inl e) => (w', inl e)
    | (w', inr vs) => embed_loop service config documents starts (acc ++ vs) w'
    end.
Proof. done. Qed.

(** A run of the loop over well-answered batches. *)
Lemma embed_loop_behaves (documents : list string) (starts : list Z)
    (acc : list pyvalue) (w : world) :
  (∀ history start, start ∈ starts →
     well_formed_response (batch_at config documents start)
       (service history (make_payload config (batch_at config documents start)))) →
  ∃ vss,
    embed_loop service config documents starts acc w
    = (mkWorld (fs w)
         (trace w ++ posts config (batch_at config documents <$> starts))
         (rng w),
       inr (acc ++ concat vss))
    ∧ Forall2 (λ start vs, ∃ history,
                 outcome_of (batch_at config documents start)
                   (service history
                      (make_payload config (batch_at config documents start)))
                 = inr vs
                 ∧ length vs = length (batch_at config documents start))
        starts vss.
Proof.
  revert acc w. induction starts as [|start starts IH]; intros acc w Hall.
  - exists []. simpl. rewrite !app_nil_r. by destruct w.
  - pose proof (Hall (trace w) start ltac:(left)) as Hwf.
    rewrite embed_loop_step, embed_batch_run.
    destruct (service (trace w) _) as [|data] eqn:Hsvc.
    { by destruct Hwf as (? & ? & ? & _). }
    destruct (parse_response_well_formed _ _ Hwf) as (vs & Hvs & Hlen).
    simpl. rewrite Hvs.
    destruct (IH (acc ++ vs) (after_post config (batch_at config documents start) w))
      as (vss & Hrun & Hrel).
    { intros history s Hs. apply Hall. by right. }
    exists (vs :: vss). rewrite Hrun. simpl. split.
    + by rewrite <- !app_assoc.
    + constructor; [|done]. exists (trace w). rewrite Hsvc. done.
Qed.
End Loop.

Lemma embed_loop_app service config (documents : list string)
    (done_ todo : list Z) (acc : list pyvalue) (w : world) :
  embed_loop service config documents (done_ ++ todo) acc w
  = match embed_loop service config documents done_ acc w with
    | (w1, inl e) => (w1, inl e)
    | (w1, inr vs) => embed_loop service config documents todo vs w1
    end.
Proof.
  revert acc w. induction done_ as [|start done_ IH]; intros acc w; [done|].
  rewrite <- app_comm_cons, !embed_loop_step.
  destruct (embed_batch _ _ _ w) as [w1 [e|vs]]; [done|]. apply IH.
Qed.

Lemma embed_loop_run service config (documents : list string) (starts : list Z)
    (acc : list pyvalue) (w : world) :
  ∃ bs x,
    embed_loop service config documents starts acc w
    = (after_events (posts config bs) w, x)
    ∧ bs `prefix_of` (batch_at config documents <$> starts).
Proof.
  revert acc w. induction starts as [|start starts IH]; intros acc w.
  - exists [], (inr acc). simpl. by rewrite after_events_nil.
  - rewrite embed_loop_step, embed_batch_run.
    destruct (outcome_of _ _) as [e|vs].
    + exists [batch_at config documents start], (inl e). split; [done|].
      simpl. by apply prefix_cons, prefix_nil.
    + destruct (IH (acc ++ vs) (after_post config (batch_at config documents start) w))
        as (bs & x & -> & Hpre).
      exists (batch_at config documents start :: bs), x. split.
      * unfold after_events, after_post. simpl. by rewrite <- app_assoc.
      * simpl. by apply prefix_cons.
Qed.


Lemma embed_documents_nonempty service config (texts : list string) (w : world) :
  texts ≠ [] → 0 < batch_size config →
  embed_documents service config texts w
  = embed_loop service config texts
      ((λ j : nat, Z.of_nat j * batch_size config)
         <$> seq 0 (Z.to_nat ((Z.of_nat (length texts) + batch_size config - 1)
                              / batch_size config)))
      [] w.
Proof.
  intros Hne Hb. destruct texts as [|t texts]; [done|].
  unfold embed_documents. rewrite py_range_forward by lia. done.
Qed.

(** A run of [embed_documents] against a service that behaves. *)
Lemma embed_documents_behaves service config (texts : list string) (w : world) :
  texts ≠ [] → 0 < batch_size config →
  service_behaves service config texts →
  ∃ vss,
    embed_documents service config texts w
    = (mkWorld (fs w) (trace w ++ posts config (batches config texts)) (rng w),
       inr (concat vss))
    ∧ Forall2 (λ batch vs, ∃ history,
                 outcome_of batch (service history (make_payload config batch)) = inr vs
                 ∧ length vs = length batch)
        (batches config texts) vss.
Proof.
  intros Hne Hb Hsvc.
  rewrite embed_documents_nonempty, batches_starts by done.
  set (starts := _ <$> seq _ _).
  destruct (embed_loop_behaves service config texts starts [] w) as (vss & Hrun & Hrel).
  { intros history start Hin. apply Hsvc. rewrite batches_starts by done.
    by apply list_elem_of_fmap_2. }
  exists vss. split; [done|]. by apply Forall2_fmap_l.
Qed.

Lemma embed_documents_run service config (texts : list string) (w : world) :
  ∃ bs x,
    embed_documents service config texts w = (after_events (posts config bs) w, x)
    ∧ bs `prefix_of` batches config texts.
Proof.
  destruct texts as [|t texts].
  { exists [], (inr []). simpl. rewrite after_events_nil. split; [done|].
    apply prefix_nil. }
  unfold embed_documents, batches. rewrite bind_run.
  destruct (py_range _ _ _) as [starts|]; simpl.
  - apply embed_loop_run.
  - exists [], (inl PyValueError). rewrite after_events_nil. split; [done|].
    apply prefix_nil.
Qed.


(** A failure of the loop after the calls of [done_] went well. *)
Lemma embed_documents_fails_at service config (documents : list string)
    (done_ todo : list Z) (start : Z) (vs : list pyvalue) (w w1 w2 : world)
    (e : error) :
  documents ≠ [] →
  py_range 0 (Z.of_nat (length documents)) (batch_size config)
  = Some (done_ ++ start :: todo) →
  embed_loop service config documents done_ [] w = (w1, inr vs) →
  embed_batch service config (batch_at config documents start) w1 = (w2, inl e) →
  embed_documents service config documents w = (w2, inl e).
Proof.
  intros Hne Hrange Hdone Hfail. destruct documents as [|t documents]; [done|].
  unfold embed_documents. rewrite bind_run, Hrange. simpl.
  rewrite embed_loop_app, Hdone, embed_loop_step. by rewrite Hfail.
Qed.

(** Claim C2.  With a positive batch size and a service that answers
    every batch of the run with a well-formed response of one vector per
    input, [embed_documents] returns as many vectors as it was given
    texts; they are in the order of the texts: if the service gives the
    vector [f t] to each text [t], the result is [f] mapped over the
    texts.  On the empty list, whatever the batch size, the result is
    empty and the world is untouched: no call is made. *)
Theorem embed_documents_length_order service config (texts : list string) (w : world) :
  (texts ≠ [] → 0 < batch_size config) →
  service_behaves service config texts →
  ∃ w' vectors,
    embed_documents service config texts w = (w', inr vectors)
    ∧ length vectors = length texts
    ∧ (∀ f, service_computes f service config texts → vectors = f <$> texts)
    ∧ (texts = [] → vectors = [] ∧ w' = w).
Proof.
  intros Hb Hsvc. destruct (decide (texts = [])) as [->|Hne].
  { exists w, []. repeat split; try done. }
  specialize (Hb Hne).
  destruct (embed_documents_behaves service config texts w Hne Hb Hsvc)
    as (vss & Hrun & Hrel).
  eexists _, _. split; [exact Hrun|]. split; [|split; [|done]].
  - transitivity (length (concat (batches config texts)));
      [|by rewrite batches_concat].
    apply (concat_lengths _ _ _ Hrel). by intros l k (_ & _ & ?).
  - intros f Hf.
    transitivity (f <$> concat (batches config texts));
      [|by rewrite batches_concat].
    rewrite fmap_concat_pieces. f_equal. apply list_eq_Forall2, Forall2_fmap_r.
    apply Forall2_same_length_lookup. split; [symmetry; by eapply Forall2_length|].
    intros i vs batch Hvs Hbatch.
    destruct (Forall2_lookup_lr _ _ _ _ _ _ Hrel Hbatch Hvs) as (history & Hout & _).
    assert (batch ∈ batches config texts) as Hin by (by eapply list_elem_of_lookup_2).
    specialize (Hf history batch Hin).
    destruct (service history _) as [|data]; [by destruct Hf as (? & ? & ? & _)|].
    simpl in Hout. rewrite (parse_response_answers f) in Hout by done. congruence.
Qed.

(** Claim C3.  For a non-empty list of [n] texts, a positive batch size
    [b] and a service that behaves, the calls [embed_documents] makes are
    exactly one per batch, in order; the batches are consecutive pieces
    of the input of at most [b] texts; there are [ceil(n/b)] of them;
    all but the last have exactly [b] texts and the last has [n mod b],
    or [b] when [b] divides [n]. *)
Theorem embed_documents_batching service config (texts : list string) (w : world) :
  texts ≠ [] →
  0 < batch_size config →
  service_behaves service config texts →
  ∃ w' vectors bs,
    embed_documents service config texts w = (w', inr vectors)
    (* one call per batch, in order, and nothing else *)
    ∧ w' = after_events (posts config bs) w
    (* consecutive batches of at most [batch_size] texts *)
    ∧ concat bs = texts
    ∧ Forall (λ batch, Z.of_nat (length batch) ≤ batch_size config) bs
    (* ceil(n / b) of them *)
    ∧ Z.of_nat (length bs)
      = (Z.of_nat (length texts) + batch_size config - 1) / batch_size config
    ∧ (Z.of_nat (length bs) - 1) * batch_size config < Z.of_nat (length texts)
      ≤ Z.of_nat (length bs) * batch_size config
    (* all full but the last *)
    ∧ (∀ (k : nat) batch, bs !! k = Some batch → (S k < length bs)%nat →
         Z.of_nat (length batch) = batch_size config)
    ∧ (∀ batch, last bs = Some batch →
         Z.of_nat (length batch)
         = if decide (Z.of_nat (length texts) `mod` batch_size config = 0)
           then batch_size config
           else Z.of_nat (length texts) `mod` batch_size config)
    (* each call carries its batch, unless the extra parameters redefine
       the field *)
    ∧ (model_kwargs config !! "input" = None →
       ∀ batch, batch ∈ bs →
         make_payload config batch !! "input" = Some (PList (PStr <$> batch))).
Proof.
  intros Hne Hb Hsvc.
  destruct (embed_documents_behaves service config texts w Hne Hb Hsvc)
    as (vss & Hrun & _).
  exists (after_events (posts config (batches config texts)) w), (concat vss),
    (batches config texts).
  split; [exact Hrun|]. split; [done|].
  split; [by apply batches_concat|].
  split; [apply Forall_forall; intros batch; by apply batches_at_most|].
  pose proof (batches_count config texts Hb) as Hcount.
  split; [done|]. split.
  { rewrite Hcount.
    pose proof (ceiling_bounds config texts Hb) as (Hlo & Hup & _).
    rewrite Z2Nat.id in Hlo, Hup by (apply Z.div_pos; lia). lia. }
  split; [intros k batch; by apply batches_full|].
  split; [intros batch; by apply batches_last|].
  intros Hno batch _. by apply make_payload_input.
Qed.

(* ================================================================== *)
(** * Naming a store *)
(* ================================================================== *)

(** An entry that is listed is there, and a free name is not listed. *)
Lemma listed_present (d : gmap (string * string) node) (base_dir name : string) :
  is_Some (d !! (base_dir, name)) → path_present d base_dir name = true.
Proof. intros H. unfold path_present. by rewrite bool_decide_eq_true_2. Qed.

Lemma free_lookup (w : world) (base_dir name : string) :
  free w base_dir name → fs w !! (base_dir, name) = None.
Proof.
  unfold free, path_present. intros [H _]%orb_false_iff.
  apply bool_decide_eq_false_1 in H. by apply eq_None_not_Some.
Qed.








Lemma string_of_list_ascii_length (cs : list ascii) :
  String.length (String.string_of_list_ascii cs) = length cs.
Proof. induction cs; simpl; congruence. Qed.

Lemma random_suffix_run (k : nat) (w : world) :
  (∃ suffix, String.length suffix = k
     ∧ random_suffix k w = (with_rng (drop k (rng w)) w, inr suffix))
  ∨ random_suffix k w = (w, inl FuelExhausted).
Proof.
  unfold random_suffix, random_choices. run_M.
  case_decide as Hk; simpl; [left|by right].
  eexists. split; [|reflexivity].
  rewrite string_of_list_ascii_length, length_fmap, length_take. lia.
Qed.

Lemma ensure_unique_loop_step (fuel : nat) (base_dir desired_name candidate : string)
    (w : world) :
  ensure_unique_loop fuel base_dir desired_name candidate w
  = if path_present (fs w) base_dir candidate
    then match fuel with
         | O => (w, inl FuelExhausted)
         | S fuel' =>
             match random_suffix 4 w with
             | (w', inl e) => (w', inl e)
             | (w', inr suffix) =>
                 ensure_unique_loop fuel' base_dir desired_name
                   (desired_name +:+ "_" +:+ suffix) w'
             end
         end
    else (w, inr candidate).
Proof.
  destruct fuel; simpl; unfold mbind, M_bind, path_exists, get_world, mret, M_ret;
    simpl; by destruct (path_present _ _ _).
Qed.

Lemma ensure_unique_loop_run (fuel : nat) (base_dir desired_name candidate : string)
    (w : world) :
  ∃ r x,
    ensure_unique_loop fuel base_dir desired_name candidate w = (with_rng r w, x)
    ∧ (x = inl FuelExhausted
       ∨ ∃ final, x = inr final ∧ free w base_dir final
           ∧ (final = candidate ∨ suffixed desired_name final))
    ∧ (free w base_dir candidate → x = inr candidate ∧ r = rng w).
Proof.
  revert candidate w. induction fuel as [|fuel IH]; intros candidate w;
    rewrite ensure_unique_loop_step; unfold free;
    (destruct (path_present (fs w) base_dir candidate) eqn:Hc;
     [|exists (rng w), (inr candidate); destruct w; split; [done|]; split; [|done];
      right; exists candidate; simpl in *; eauto]).
  - exists (rng w), (inl FuelExhausted). destruct w. split; [done|].
    split; [by left|]. simpl in *. congruence.
  - destruct (random_suffix_run 4 w) as [(suffix & Hlen & ->)| ->].
    + destruct (IH (desired_name +:+ "_" +:+ suffix) (with_rng (drop 4 (rng w)) w))
        as (r & x & Hrun & Hx & _).
      exists r, x. rewrite Hrun. split; [done|]. split; [|congruence].
      destruct Hx as [->|(final & -> & Hfree & Hshape)]; [by left|].
      right. exists final. split; [done|]. split; [done|]. right.
      destruct Hshape as [->|?]; [|done]. by exists suffix.
    + exists (rng w), (inl FuelExhausted). destruct w. split; [done|].
      split; [by left|]. simpl in *. congruence.
Qed.

Lemma random_suffix_short (k : nat) (w : world) :
  (length (rng w) < k)%nat → random_suffix k w = (w, inl FuelExhausted).
Proof.
  intros Hk. unfold random_suffix, random_choices. rewrite !bind_run. simpl.
  by rewrite decide_False by lia.
Qed.

(** The bound on the turns of the naming loop is not what stops it: any
    bound of at least the number of choices left gives the same run. *)
Lemma ensure_unique_loop_fuel (fuel fuel' : nat)
    (base_dir desired_name candidate : string) (w : world) :
  (length (rng w) ≤ fuel)%nat → (length (rng w) ≤ fuel')%nat →
  ensure_unique_loop fuel base_dir desired_name candidate w
  = ensure_unique_loop fuel' base_dir desired_name candidate w.
Proof.
  revert fuel' candidate w.
  induction fuel as [|fuel IH]; intros [|fuel'] candidate w Hf Hf';
    rewrite !ensure_unique_loop_step; destruct (path_present _ _ _); try done.
  - by rewrite random_suffix_short by lia.
  - by rewrite random_suffix_short by lia.
  - destruct (random_suffix_run 4 w) as [(suffix & _ & Hrun)|Hrun]; rewrite Hrun;
      [|done].
    destruct (decide (4 ≤ length (rng w))%nat) as [Hlen|Hlen].
    + apply IH; simpl; rewrite length_drop; lia.
    + rewrite random_suffix_short in Hrun by lia. done.
Qed.

Lemma ensure_unique_path_run (base_dir desired_name : string) (w : world) :
  ∃ r x,
    ensure_unique_path base_dir desired_name w = (with_rng r w, x)
    ∧ (x = inl FuelExhausted
       ∨ ∃ final, x = inr final ∧ free w base_dir final
           ∧ (final = desired_name ∨ suffixed desired_name final))
    ∧ (free w base_dir desired_name → x = inr desired_name ∧ r = rng w).
Proof.
  unfold ensure_unique_path, mbind, M_bind, get_world.
  apply ensure_unique_loop_run.
Qed.

(** The trace plays no part in the choice of the name. *)
Lemma ensure_unique_loop_trace (fuel : nat) (base_dir desired_name candidate : string)
    (w : world) (evs : list event) :
  ensure_unique_loop fuel base_dir desired_name candidate
    (mkWorld (fs w) (trace w ++ evs) (rng w))
  = let r := ensure_unique_loop fuel base_dir desired_name candidate w in
    (mkWorld (fs r.1) (trace r.1 ++ evs) (rng r.1), r.2).
Proof.
  revert candidate w. induction fuel as [|fuel IH]; intros candidate w;
    rewrite !ensure_unique_loop_step; simpl;
    destruct (path_present _ _ _); try done.
  destruct (random_suffix_run 4 w) as [(suffix & Hlen & Hs)|Hs]; rewrite Hs.
  - unfold random_suffix, random_choices in *. run_M.
    case_decide; [|done]. simpl in *. injection Hs as <-.
    apply (IH _ (with_rng (drop 4 (rng w)) w)).
  - unfold random_suffix, random_choices in *. run_M.
    case_decide; [done|]. done.
Qed.

Lemma ensure_unique_path_trace (base_dir desired_name : string) (w : world)
    (evs : list event) :
  ensure_unique_path base_dir desired_name
    (mkWorld (fs w) (trace w ++ evs) (rng w))
  = let r := ensure_unique_path base_dir desired_name w in
    (mkWorld (fs r.1) (trace r.1 ++ evs) (rng r.1), r.2).
Proof.
  unfold ensure_unique_path. rewrite !bind_run. simpl.
  apply ensure_unique_loop_trace.
Qed.

Lemma resolved_cases (self : VectorStoreBuilder) (w : world) :
  (resolved self w = inl FuelExhausted
   ∨ ∃ final, resolved self w = inr final ∧ free w (base_path self) final
       ∧ (final = store_name self ∨ suffixed (store_name self) final))
  ∧ (free w (base_path self) (store_name self) →
     resolved self w = inr (store_name self) ∧ rng_after_naming self w = rng w).
Proof.
  unfold resolved, rng_after_naming.
  destruct (ensure_unique_path_run (base_path self) (store_name self) w)
    as (r & x & -> & Hx & Hfree). done.
Qed.

(* ================================================================== *)
(** * Building a store *)
(* ================================================================== *)

Lemma write_file_run (base_dir name file : string) (content : artifact)
    (stage : persistence_stage) (files : gmap string artifact) (w : world) :
  fs w !! (base_dir, name) = Some (Directory files) →
  write_file base_dir name file content stage w
  = (mkWorld (<[(base_dir, name) := Directory (<[file := content]> files)]> (fs w))
       (trace w) (rng w),
     inr tt).
Proof. intros H. unfold write_file. run_M. by rewrite H. Qed.

Lemma mkdir_run (disk : storage_behaviour) (base_dir name : string) (w : world) :
  free w base_dir name →
  mkdir disk base_dir name w
  = if mkdir_succeeds disk
    then (mkWorld (<[(base_dir, name) := Directory ∅]> (fs w)) (trace w) (rng w), inr tt)
    else (w, inl (PersistenceError AtMkdir)).
Proof.
  intros H%free_lookup. unfold mkdir. run_M. rewrite H.
  by destruct (mkdir_succeeds disk).
Qed.

(** [build] once its inputs have passed the checks and the index is
    made: the naming, then the directory, then the writes. *)
Lemma build_run (disk : storage_behaviour) (self : VectorStoreBuilder)
    (documents : list Document) (embeddings : list pyvalue) (w : world)
    (first : pyvalue) (rest : list pyvalue) (d : nat) :
  length documents = length embeddings →
  embeddings = first :: rest →
  py_len first = Some d →
  index_accepts disk d embeddings = true →
  build disk self documents embeddings w
  = let ix := built_index (as_float32 disk <$> embeddings) d in
    let tr := trace w ++ [EvIndex ix] in
    let r := rng_after_naming self w in
    match resolved self w with
    | inl e => (mkWorld (fs w) tr r, inl e)
    | inr final =>
        if mkdir_succeeds disk
        then
          let '(files, failure) := persisted disk ix (imap metadata_entry documents) in
          (mkWorld (<[(base_path self, final) := Directory files]> (fs w)) tr r,
           match failure with
           | Some stage => inl (PersistenceError stage)
           | None => inr final
           end)
        else (mkWorld (fs w) tr r, inl (PersistenceError AtMkdir))
    end.
Proof.
  intros Hlen -> Hd Hacc.
  set (ix := built_index (as_float32 disk <$> first :: rest) d).
  pose proof (ensure_unique_path_trace (base_path self) (store_name self) w
                [EvIndex ix]) as Hrun.
  destruct (ensure_unique_path_run (base_path self) (store_name self) w)
    as (r & x & Hw & Hx & _).
  unfold resolved, rng_after_naming. rewrite Hw in Hrun |- *. simpl in Hrun |- *.
  unfold build. rewrite decide_False by (by intros ?).
  rewrite bind_run. simpl. rewrite Hd. simpl. rewrite Hacc. simpl.
  change (mkIndex d _) with ix. rewrite bind_run. simpl.
  rewrite bind_run, Hrun.
  destruct Hx as [->|(final & -> & Hfinal & _)]; [done|].
  simpl. rewrite bind_run, mkdir_run by done.
  destruct (mkdir_succeeds disk); [|done].
  unfold persisted.
  destruct (write_index_succeeds disk); simpl; [|done].
  rewrite bind_run.
  erewrite write_file_run by (simpl; apply lookup_insert_eq).
  simpl. rewrite insert_insert_eq.
  destruct (open_metadata_succeeds disk); simpl; [|done].
  rewrite bind_run.
  erewrite write_file_run by (simpl; apply lookup_insert_eq).
  simpl. rewrite insert_insert_eq.
  destruct (dump_metadata_succeeds disk); simpl; [|done].
  rewrite bind_run.
  erewrite write_file_run by (simpl; apply lookup_insert_eq).
  simpl. by rewrite !insert_insert_eq.
Qed.

(** [build] stopped by one of its checks, or by the libraries. *)
Lemma build_refused (disk : storage_behaviour) (self : VectorStoreBuilder)
    (documents : list Document) (embeddings : list pyvalue) (w : world) :
  build disk self documents embeddings w
  = if decide (length documents ≠ length embeddings)
    then (w, inl (CardinalityError (length documents) (length embeddings)))
    else match embeddings with
         | [] => (w, inl EmptyInputError)
         | first :: _ =>
             match py_len first with
             | None => (w, inl IndexConstructionError)
             | Some d =>
                 if index_accepts disk d embeddings
                 then build disk self documents embeddings w
                 else (w, inl IndexConstructionError)
             end
         end.
Proof.
  unfold build. destruct (decide (length documents ≠ length embeddings)); [done|].
  destruct embeddings as [|first rest]; [done|].
  rewrite bind_run. simpl. destruct (py_len first) as [d|]; [simpl|done].
  by destruct (index_accepts disk d (first :: rest)).
Qed.

Lemma metadata_entry_id (i : nat) (doc : Document) :
  metadata_entry i doc !! "id" = Some (PInt (Z.of_nat i)).
Proof. unfold metadata_entry. apply lookup_insert_eq. Qed.

Lemma metadata_entry_text (i : nat) (doc : Document) :
  metadata_entry i doc !! "text" = Some (PStr (text doc)).
Proof.
  unfold metadata_entry. rewrite lookup_insert_ne by done. apply lookup_insert_eq.
Qed.

Lemma metadata_entry_other (i : nat) (doc : Document) (k : string) :
  k ≠ "id" → k ≠ "text" → metadata_entry i doc !! k = metadata doc !! k.
Proof.
  intros Hid Htext. unfold metadata_entry. by rewrite !lookup_insert_ne by done.
Qed.

Lemma metadata_list_lookup (documents : list Document) (i : nat) (doc : Document) :
  documents !! i = Some doc →
  imap metadata_entry documents !! i = Some (metadata_entry i doc).
Proof. intros H. by rewrite list_lookup_imap, H. Qed.

Lemma complete_store_metadata ix entries :
  ∃ files, complete_store ix entries = Directory files
    ∧ files !! "index.faiss" = Some (IndexFile ix)
    ∧ files !! "metadata.json" = Some (MetadataFile entries).
Proof.
  eexists. split; [reflexivity|]. split.
  - by rewrite lookup_insert_ne, lookup_singleton_eq.
  - apply lookup_insert_eq.
Qed.


(** A successful [build]. *)
Lemma build_succeeds (disk : storage_behaviour) (self : VectorStoreBuilder)
    (documents : list Document) (embeddings : list pyvalue) (w : world)
    (ix : faiss_index) :
  length documents = length embeddings →
  index_made disk embeddings = Some ix →
  disk_writes disk →
  naming_ends self w →
  ∃ final,
    resolved self w = inr final
    ∧ free w (base_path self) final
    ∧ build disk self documents embeddings w
      = (mkWorld
           (<[(base_path self, final)
              := complete_store ix (imap metadata_entry documents)]> (fs w))
           (trace w ++ [EvIndex ix]) (rng_after_naming self w),
         inr final).
Proof.
  intros Hlen Hix (Hmk & Hwi & Hop & Hdu) Hend.
  destruct embeddings as [|first rest]; [done|]. simpl in Hix.
  destruct (py_len first) as [d|] eqn:Hd; [|done].
  destruct (index_accepts disk d (first :: rest)) eqn:Hacc; [|done].
  injection Hix as <-.
  destruct (resolved_cases self w) as [[Hfuel|(final & Hfinal & Hfree & _)] _];
    [done|].
  exists final. split; [done|]. split; [done|].
  rewrite (build_run disk self documents _ w first rest d) by done.
  simpl. rewrite Hfinal, Hmk. unfold persisted. by rewrite Hwi, Hop, Hdu.
Qed.

(** What a [build] that returns has done. *)
Lemma build_returns (disk : storage_behaviour) (self : VectorStoreBuilder)
    (documents : list Document) (embeddings : list pyvalue) (w w' : world)
    (final : string) :
  build disk self documents embeddings w = (w', inr final) →
  ∃ ix,
    index_made disk embeddings = Some ix
    ∧ resolved self w = inr final
    ∧ w' = mkWorld
             (<[(base_path self, final)
                := complete_store ix (imap metadata_entry documents)]> (fs w))
             (trace w ++ [EvIndex ix]) (rng_after_naming self w).
Proof.
  rewrite build_refused. case_decide as Hlen; [done|].
  destruct embeddings as [|first rest]; [done|].
  destruct (py_len first) as [d|] eqn:Hd; [|done].
  destruct (index_accepts disk d (first :: rest)) eqn:Hacc; [|done].
  rewrite (build_run disk self documents _ w first rest d)
    by (done || by destruct (decide (length documents = length (first :: rest)))).
  simpl. rewrite Hd, Hacc.
  destruct (resolved self w) as [e|name]; [done|].
  destruct (mkdir_succeeds disk); [|done].
  unfold persisted.
  destruct (write_index_succeeds disk); [|done].
  destruct (open_metadata_succeeds disk); [|done].
  destruct (dump_metadata_succeeds disk); [|done].
  simpl. intros [= <- <-]. by eexists.
Qed.


(** Claim C1.  For documents and vectors of the same, non-zero length,
    when the libraries accept the vectors, the disk takes the writes and
    the naming loop ends, [build] returns, and the metadata file of the
    store it names holds one entry per document, in the order of the
    documents: the entry at position [i] has [i] under ["id"], the text
    of [documents[i]] under ["text"], and under every other key what
    the metadata of [documents[i]] has there. *)
Theorem build_metadata_list (disk : storage_behaviour) (self : VectorStoreBuilder)
    (documents : list Document) (embeddings : list pyvalue) (w : world)
    (ix : faiss_index) :
  documents ≠ [] →
  length documents = length embeddings →
  index_made disk embeddings = Some ix →
  disk_writes disk →
  naming_ends self w →
  ∃ w' final files entries,
    build disk self documents embeddings w = (w', inr final)
    ∧ fs w' !! (base_path self, final) = Some (Directory files)
    ∧ files !! "metadata.json" = Some (MetadataFile entries)
    ∧ length entries = length documents
    ∧ ∀ (i : nat) (doc : Document), documents !! i = Some doc →
        ∃ entry, entries !! i = Some entry
          ∧ entry !! "id" = Some (PInt (Z.of_nat i))
          ∧ entry !! "text" = Some (PStr (text doc))
          ∧ ∀ k, k ≠ "id" → k ≠ "text" → entry !! k = metadata doc !! k.
Proof.
  intros _ Hlen Hix Hdisk Hend.
  destruct (build_succeeds disk self documents embeddings w ix)
    as (final & _ & _ & Hrun); try done.
  destruct (complete_store_metadata ix (imap metadata_entry documents))
    as (files & Hfiles & _ & Hmeta).
  eexists _, final, files, _. split; [exact Hrun|]. simpl.
  split; [by rewrite lookup_insert_eq, Hfiles|]. split; [exact Hmeta|].
  split; [apply length_imap|].
  intros i doc Hdoc. exists (metadata_entry i doc).
  split; [by apply metadata_list_lookup|].
  split; [apply metadata_entry_id|]. split; [apply metadata_entry_text|].
  apply metadata_entry_other.
Qed.

(** Claim C10.  For a document whose metadata has a ["text"] or an
    ["id"] key, the entry [build] persists for it has the text of the
    document under ["text"] and its position under ["id"]: a value the
    metadata had under one of these keys, if different, is not
    persisted. *)
Theorem build_overwrites_text_and_id (disk : storage_behaviour)
    (self : VectorStoreBuilder) (documents : list Document)
    (embeddings : list pyvalue) (w : world) (ix : faiss_index)
    (i : nat) (doc : Document) :
  length documents = length embeddings →
  index_made disk embeddings = Some ix →
  disk_writes disk →
  naming_ends self w →
  documents !! i = Some doc →
  is_Some (metadata doc !! "text") ∨ is_Some (metadata doc !! "id") →
  ∃ w' final files entries entry,
    build disk self documents embeddings w = (w', inr final)
    ∧ fs w' !! (base_path self, final) = Some (Directory files)
    ∧ files !! "metadata.json" = Some (MetadataFile entries)
    ∧ entries !! i = Some entry
    ∧ entry !! "text" = Some (PStr (text doc))
    ∧ entry !! "id" = Some (PInt (Z.of_nat i))
    ∧ (∀ v, metadata doc !! "text" = Some v → v ≠ PStr (text doc) →
         entry !! "text" ≠ Some v)
    ∧ (∀ v, metadata doc !! "id" = Some v → v ≠ PInt (Z.of_nat i) →
         entry !! "id" ≠ Some v).
Proof.
  intros Hlen Hix Hdisk Hend Hdoc _.
  destruct (build_succeeds disk self documents embeddings w ix)
    as (final & _ & _ & Hrun); try done.
  destruct (complete_store_metadata ix (imap metadata_entry documents))
    as (files & Hfiles & _ & Hmeta).
  eexists _, final, files, _, (metadata_entry i doc). split; [exact Hrun|]. simpl.
  split; [by rewrite lookup_insert_eq, Hfiles|]. split; [exact Hmeta|].
  split; [by apply metadata_list_lookup|].
  rewrite metadata_entry_id, metadata_entry_text.
  repeat split; congruence.
Qed.

(** Claim C4.  When the documents and the vectors differ in number,
    [build] fails with the cardinality error; when they agree in number
    and there is no vector, it fails with the empty-input error.  In
    both cases the world it leaves is the world it found: no index has
    been made and no directory created. *)
Theorem build_checks_its_input (disk : storage_behaviour) (self : VectorStoreBuilder)
    (documents : list Document) (embeddings : list pyvalue) (w : world) :
  (length documents ≠ length embeddings →
   build disk self documents embeddings w
   = (w, inl (CardinalityError (length documents) (length embeddings))))
  ∧ (length documents = length embeddings → embeddings = [] →
     build disk self documents embeddings w = (w, inl EmptyInputError)).
Proof.
  split.
  - intros Hne. rewrite build_refused. by rewrite decide_True.
  - intros Heq ->. rewrite build_refused. by rewrite decide_False by (by intros ?).
Qed.


(* ================================================================== *)
(** * Collecting documents *)
(* ================================================================== *)

Lemma parse_files_run (src : sources) (paths : list string)
    (documents : list Document) (w : world) :
  ∃ x, parse_files src paths documents w = (w, x).
Proof.
  revert documents. induction paths as [|p paths IH]; intros documents; simpl.
  - by eexists.
  - destruct (parse_file src p) as [[docs|]|]; [apply IH| by eexists |apply IH].
Qed.


Lemma parse_files_nothing (src : sources) (paths : list string) (w : world) :
  forallb (file_yields_nothing src) paths = true →
  parse_files src paths [] w = (w, inr []).
Proof.
  induction paths as [|p paths IH]; simpl; [done|].
  intros [Hp Hrest]%andb_prop. unfold file_yields_nothing in Hp.
  destruct (parse_file src p) as [[[|? ?]|]|]; try done; by apply IH.
Qed.

Lemma git_process_run (src : sources) (settings : GitSettings) (w : world) :
  ∃ evs x, git_process src settings w = (after_events evs w, x)
    ∧ Forall collection_event evs.
Proof.
  unfold git_process. destruct (git_available src).
  - exists [EvClone (git_url settings)]. rewrite bind_run. simpl.
    destruct (git_documents src settings); eexists; (split; [reflexivity|]);
      by repeat constructor.
  - exists [], (inl SourceError). by rewrite after_events_nil.
Qed.

Lemma git_process_nothing (src : sources) (settings : GitSettings) (w : world) :
  git_available src = true →
  match git_documents src settings with Some [] => true | _ => false end = true →
  git_process src settings w
  = (after_events [EvClone (git_url settings)] w, inr []).
Proof.
  intros Ha Hd. unfold git_process. rewrite Ha, bind_run. simpl.
  by destruct (git_documents src settings) as [[|? ?]|].
Qed.

Lemma confluence_process_run (src : sources) (settings : ConfluenceSettings)
    (w : world) :
  ∃ evs x, confluence_process src settings w = (after_events evs w, x)
    ∧ Forall collection_event evs.
Proof.
  unfold confluence_process. destruct (confluence_available src).
  - exists [EvListPages (space_key settings)]. rewrite bind_run. simpl.
    eexists; (split; [reflexivity|]); by repeat constructor.
  - exists [], (inl SourceError). by rewrite after_events_nil.
Qed.

Lemma confluence_process_nothing (src : sources) (settings : ConfluenceSettings)
    (w : world) :
  confluence_available src = true →
  match confluence_documents src settings with [] => true | _ => false end = true →
  confluence_process src settings w
  = (after_events [EvListPages (space_key settings)] w, inr []).
Proof.
  intros Ha Hd. unfold confluence_process. rewrite Ha, bind_run. simpl.
  by destruct (confluence_documents src settings).
Qed.

Lemma gather_run (src : sources) (config : AppConfig) (w : world) :
  ∃ evs x, gather src config w = (after_events evs w, x)
    ∧ Forall collection_event evs.
Proof.
  unfold gather. rewrite bind_run.
  assert (∃ x,
    (match truthy (files_location config) with
     | Some path =>
         match kind_of src path with
         | IsFile => parse_files src [path] []
         | IsDir => parse_files src (list_files src path) []
         | Missing => mret []
         end
     | None => mret []
     end : M (list Document)) w = (w, x)) as [x ->].
  { destruct (truthy _); [|by eexists].
    destruct (kind_of src _); [apply parse_files_run..|by eexists]. }
  destruct x as [e|docs0].
  { exists [], (inl e). by rewrite after_events_nil. }
  rewrite bind_run.
  assert (∃ evs x,
    (match git_settings config with
     | Some settings => docs ← git_process src settings; mret (docs0 ++ docs)
     | None => mret docs0
     end) w = (after_events evs w, x) ∧ Forall collection_event evs)
    as (evs1 & x1 & -> & Hevs1).
  { destruct (git_settings config) as [s|].
    - rewrite bind_run. destruct (git_process_run src s w) as (evs & x & -> & ?).
      exists evs. destruct x; by eexists.
    - exists [], (inr docs0). by rewrite after_events_nil. }
  destruct x1 as [e|docs1]; [by exists evs1, (inl e)|].
  destruct (confluence_settings config) as [s|].
  - rewrite bind_run.
    destruct (confluence_process_run src s (after_events evs1 w))
      as (evs & x & -> & ?).
    rewrite after_events_app. exists (evs1 ++ evs).
    destruct x; eexists; (split; [reflexivity|]); by apply Forall_app.
  - by exists evs1, (inr docs1).
Qed.


Lemma gather_nothing (src : sources) (config : AppConfig) (w : world) :
  sources_yield_nothing src config = true →
  ∃ evs, gather src config w = (after_events evs w, inr [])
    ∧ Forall collection_event evs
    ∧ (git_settings config = None → confluence_settings config = None → evs = []).
Proof.
  unfold sources_yield_nothing.
  intros [[Hfiles Hgit]%andb_prop Hconf]%andb_prop.
  unfold gather. rewrite bind_run.
  assert ((match truthy (files_location config) with
     | Some path =>
         match kind_of src path with
         | IsFile => parse_files src [path] []
         | IsDir => parse_files src (list_files src path) []
         | Missing => mret []
         end
     | None => mret []
     end : M (list Document)) w = (w, inr [])) as ->.
  { destruct (truthy _) as [path|]; [|done].
    destruct (kind_of src path); [| |done]; apply parse_files_nothing; [|done].
    simpl. by rewrite Hfiles. }
  rewrite bind_run.
  destruct (git_settings config) as [gs|], (confluence_settings config) as [cs|].
  - apply andb_prop in Hgit as [Hga Hgd]. apply andb_prop in Hconf as [Hca Hcd].
    exists [EvClone (git_url gs); EvListPages (space_key cs)].
    rewrite bind_run, git_process_nothing by done. simpl.
    rewrite bind_run, confluence_process_nothing by done.
    split; [|split; [by repeat constructor|done]].
    unfold after_events. simpl. by rewrite <- app_assoc.
  - apply andb_prop in Hgit as [Hga Hgd].
    exists [EvClone (git_url gs)].
    rewrite bind_run, git_process_nothing by done.
    split; [done|]. split; [by repeat constructor|done].
  - apply andb_prop in Hconf as [Hca Hcd].
    exists [EvListPages (space_key cs)]. simpl.
    rewrite bind_run, confluence_process_nothing by done.
    split; [done|]. split; [by repeat constructor|done].
  - exists []. simpl. rewrite after_events_nil. done.
Qed.

(** [collect_documents] is the gathering, the check, the stamp. *)
Lemma collect_documents_gather (src : sources) (config : AppConfig) (w : world) :
  collect_documents src config w
  = match gather src config w with
    | (w', inl e) => (w', inl e)
    | (w', inr []) => (w', inl NoDocumentsError)
    | (w', inr documents) =>
        (w', inr match truthy (session_id config) with
                 | Some sid => attach_session sid <$> documents
                 | None => documents
                 end)
    end.
Proof.
  unfold collect_documents, gather. rewrite !bind_run.
  destruct (match truthy (files_location config) with _ => _ end w)
    as [w1 [e|docs0]]; [done|].
  rewrite !bind_run.
  destruct (match git_settings config with _ => _ end w1) as [w2 [e|docs1]]; [done|].
  rewrite bind_run.
  destruct (match confluence_settings config with _ => _ end w2)
    as [w3 [e|docs2]]; [done|].
  destruct docs2; [done|]. by destruct (truthy (session_id config)).
Qed.

Lemma collect_documents_run (src : sources) (config : AppConfig) (w : world) :
  ∃ evs x, collect_documents src config w = (after_events evs w, x)
    ∧ Forall collection_event evs.
Proof.
  rewrite collect_documents_gather.
  destruct (gather_run src config w) as (evs & x & -> & Hevs).
  exists evs. destruct x as [e|[|doc docs]]; by eexists.
Qed.


Lemma attach_session_stamped (sid : string) (doc : Document) :
  metadata (attach_session sid doc) !! "session_id" = Some (PStr sid).
Proof. apply lookup_insert_eq. Qed.

Lemma attach_session_frame (sid : string) (doc : Document) :
  text (attach_session sid doc) = text doc
  ∧ ∀ k, k ≠ "session_id" →
      metadata (attach_session sid doc) !! k = metadata doc !! k.
Proof. split; [done|]. intros k Hk. simpl. by rewrite lookup_insert_ne. Qed.

(** Claim C9.  With a session identifier configured (present and not
    empty, which is what the code tests), the documents
    [collect_documents] returns are those it returns without one, source
    by source and in the same order, each with the identifier under
    ["session_id"], the same text, and every other metadata key as it
    was. *)
Theorem session_id_stamped src config (w w' : world) (produced : list Document)
    (sid : string) :
  truthy (session_id config) = Some sid →
  collect_documents src (without_session config) w = (w', inr produced) →
  ∃ documents,
    collect_documents src config w = (w', inr documents)
    ∧ Forall (λ doc, metadata doc !! "session_id" = Some (PStr sid)) documents
    ∧ Forall2 (λ before doc,
                 text doc = text before
                 ∧ ∀ k, k ≠ "session_id" → metadata doc !! k = metadata before !! k)
        produced documents.
Proof.
  intros Hsid. rewrite !collect_documents_gather.
  change (gather src (without_session config) w) with (gather src config w).
  destruct (gather src config w) as [w1 [e|[|doc docs]]]; try done.
  rewrite Hsid.
  change (truthy (session_id (without_session config))) with (@None string).
  cbv beta iota. intros [= <- <-]. eexists. split; [done|]. split.
  - apply Forall_fmap, Forall_forall. intros d _. apply attach_session_stamped.
  - apply Forall2_fmap_r, Forall_Forall2_diag, Forall_forall.
    intros d _. apply attach_session_frame.
Qed.

(* ================================================================== *)
(** * The whole run *)
(* ================================================================== *)

Lemma run_pipeline_stages src service disk config (w : world) :
  run_pipeline src service disk config w
  = match collect_documents src config w with
    | (w1, inl e) => (w1, inl e)
    | (w1, inr documents) =>
        match embed_documents service (embedding_config config)
                (text <$> documents) w1 with
        | (w2, inl e) => (w2, inl e)
        | (w2, inr embeddings) =>
            build disk (mkBuilder (vector_store_path config) (vector_store_name config))
              documents embeddings w2
        end
    end.
Proof. done. Qed.

Lemma posts_not_index config (bs : list (list string)) (ix : faiss_index) :
  EvIndex ix ∉ posts config bs.
Proof. unfold posts. intros (batch & [=] & _)%list_elem_of_fmap. Qed.

Lemma collection_not_index (evs : list event) (ix : faiss_index) :
  Forall collection_event evs → EvIndex ix ∉ evs.
Proof.
  intros Hall Hin. rewrite Forall_forall in Hall. by apply Hall in Hin.
Qed.

Lemma collection_not_post (evs : list event) batch payload :
  Forall collection_event evs → EvPost batch payload ∉ evs.
Proof.
  intros Hall Hin. rewrite Forall_forall in Hall. by apply Hall in Hin.
Qed.

(** Claim C8, as amended.  When every configured source returns and
    none returns a document, the run fails with [NoDocumentsError]; all
    it has done by then are the calls of the collection itself (the
    clone of the repository, the listing of the wiki space), so no call
    to the embedding service has been made, no index built and nothing
    written; and with neither a repository nor a wiki configured it has
    done nothing at all. *)
Theorem no_documents_before_embedding src service disk config (w : world) :
  sources_yield_nothing src config = true →
  ∃ evs,
    run_pipeline src service disk config w
    = (after_events evs w, inl NoDocumentsError)
    ∧ Forall collection_event evs
    ∧ (git_settings config = None → confluence_settings config = None → evs = []).
Proof.
  intros Hnothing.
  destruct (gather_nothing src config w Hnothing) as (evs & Hg & Hevs & Hnone).
  exists evs. rewrite run_pipeline_stages, collect_documents_gather, Hg. done.
Qed.

(** Claim C5.  An item of a response is accepted when it is a list,
    which is then the vector, or an object with an ["embedding"] field,
    whose value is then the vector; any other item is refused with the
    response-format error.  (What a list or the field holds is not
    looked at.)  A response whose items are all accepted but are not as
    many as the texts of the batch is refused with the response-count
    error.  The exception of a call ends [embed_documents], and the run:
    the run ends with that exception, with the file system as it was
    and no index made. *)
Theorem response_shapes_and_counts :
  (* the two shapes that are accepted, and the vector taken from each *)
  (∀ items, parse_item (PList items) = inr (PList items))
  ∧ (∀ fields v, fields !! "embedding" = Some v → parse_item (PDict fields) = inr v)
  (* every other shape is refused *)
  ∧ (∀ item, ¬ accepted_shape item → parse_item item = inl ResponseFormatError)
  (* one call of the loop *)
  ∧ (∀ service config batch w fields items,
       service (trace w) (make_payload config batch) = HttpJson (PDict fields) →
       fields !! "data" = Some (PList items) →
       (¬ Forall accepted_shape items →
        (embed_batch service config batch w).2 = inl ResponseFormatError)
       ∧ (Forall accepted_shape items → length items ≠ length batch →
          (embed_batch service config batch w).2
          = inl (ResponseCountError (length batch) (length items))))
  (* the call that fails ends [embed_documents] with its exception *)
  ∧ (∀ service config documents done_ start todo vs w w1 w2 e,
       documents ≠ [] →
       py_range 0 (Z.of_nat (length documents)) (batch_size config)
       = Some (done_ ++ start :: todo) →
       embed_loop service config documents done_ [] w = (w1, inr vs) →
       embed_batch service config (batch_at config documents start) w1 = (w2, inl e) →
       embed_documents service config documents w = (w2, inl e))
  (* and the run, in which nothing is then indexed or written *)
  ∧ (∀ src service disk config w w1 documents w2 e,
       collect_documents src config w = (w1, inr documents) →
       embed_documents service (embedding_config config) (text <$> documents) w1
       = (w2, inl e) →
       run_pipeline src service disk config w = (w2, inl e)
       ∧ fs w2 = fs w
       ∧ ∀ ix, EvIndex ix ∈ trace w2 → EvIndex ix ∈ trace w).
Proof.
  split; [done|]. split; [by intros fields v H; simpl; rewrite H|].
  split; [apply parse_item_refuses|]. split; [|split].
  - intros service config batch w fields items Hsvc Hdata.
    rewrite embed_batch_run, Hsvc. simpl. unfold parse_response.
    rewrite Hdata. simpl. split.
    + intros Hno. by rewrite parse_items_refuses.
    + intros Hall Hlen. destruct (parse_items_accepts items Hall) as (vs & -> & Hvs).
      rewrite Hvs. by rewrite decide_True.
  - intros. by eapply embed_documents_fails_at.
  - intros src service disk config w w1 documents w2 e Hc He.
    rewrite run_pipeline_stages, Hc, He. split; [done|].
    destruct (collect_documents_run src config w) as (evs & x & Hc' & Hevs).
    rewrite Hc in Hc'. injection Hc' as -> <-.
    destruct (embed_documents_run service (embedding_config config)
                (text <$> documents) (after_events evs w)) as (bs & y & He' & _).
    rewrite He in He'. injection He' as -> <-. simpl. split; [done|].
    intros ix [[Hin|Hin]%elem_of_app|Hin]%elem_of_app; [done| |].
    + by apply collection_not_index in Hin.
    + by apply posts_not_index in Hin.
Qed.


(* ================================================================== *)
(** * The properties on the sample inputs *)
(* ================================================================== *)

Lemma answers_with_well_formed (f : string → pyvalue) (batch : list string)
    (r : http_outcome) :
  answers_with f batch r → well_formed_response batch r.
Proof.
  intros (fields & items & -> & Hdata & Hall). exists fields, items.
  split; [done|]. split; [done|]. split.
  - apply Forall2_Forall_r with (Q := accepted_shape) in Hall; [done|].
    apply Forall_forall. intros t _ item Hc. apply accepted_shape_carries. eauto.
  - symmetry. by eapply Forall2_length.
Qed.

Lemma sample_service_computes (texts : list string) :
  service_computes sample_vector sample_service sample_embedding_config texts.
Proof.
  intros history batch _. unfold sample_service.
  rewrite make_payload_input by done.
  eexists _, _. split; [done|]. split; [apply lookup_singleton_eq|].
  apply Forall2_fmap_r, Forall2_fmap_r, Forall_Forall2_diag, Forall_forall.
  intros t _. right. eexists. split; [done|]. apply lookup_singleton_eq.
Qed.

Lemma sample_service_behaves (texts : list string) :
  service_behaves sample_service sample_embedding_config texts.
Proof.
  intros history batch Hin.
  apply (answers_with_well_formed sample_vector).
  by apply (sample_service_computes texts).
Qed.

Lemma embed_documents_length_order_witness :
  ∃ w' vectors,
    embed_documents sample_service sample_embedding_config five_texts empty_world
    = (w', inr vectors)
    ∧ length vectors = length five_texts
    ∧ (∀ f, service_computes f sample_service sample_embedding_config five_texts →
         vectors = f <$> five_texts)
    ∧ (five_texts = [] → vectors = [] ∧ w' = empty_world).
Proof.
  apply embed_documents_length_order; [by intros _|apply sample_service_behaves].
Defined.

Lemma embed_documents_batching_witness :
  ∃ w' vectors bs,
    embed_documents sample_service sample_embedding_config five_texts empty_world
    = (w', inr vectors)
    ∧ w' = after_events (posts sample_embedding_config bs) empty_world
    ∧ concat bs = five_texts
    ∧ Forall (λ batch, Z.of_nat (length batch) ≤ 2) bs
    ∧ Z.of_nat (length bs) = (5 + 2 - 1) / 2
    ∧ (Z.of_nat (length bs) - 1) * 2 < 5 ≤ Z.of_nat (length bs) * 2
    ∧ (∀ (k : nat) batch, bs !! k = Some batch → (S k < length bs)%nat →
         Z.of_nat (length batch) = 2)
    ∧ (∀ batch, last bs = Some batch →
         Z.of_nat (length batch) = if decide (5 `mod` 2 = 0) then 2 else 5 `mod` 2)
    ∧ (model_kwargs sample_embedding_config !! "input" = None →
       ∀ batch, batch ∈ bs →
         make_payload sample_embedding_config batch !! "input"
         = Some (PList (PStr <$> batch))).
Proof.
  apply (embed_documents_batching sample_service sample_embedding_config
           five_texts empty_world); [done|done|apply sample_service_behaves].
Defined.

(** Five texts in batches of two: three calls, of two, two and one. *)
Example five_texts_in_three_calls :
  trace (embed_documents sample_service sample_embedding_config five_texts
           empty_world).1
  = posts sample_embedding_config [["a"; "bb"]; ["ccc"; "dddd"]; ["eeeee"]].
Proof. reflexivity. Qed.

(** A batch size of zero is the [ValueError] of [range], a negative one
    an empty loop. *)
Example batch_size_zero :
  embed_documents sample_service (mkEmbeddingConfig "" 0 ∅) five_texts empty_world
  = (empty_world, inl PyValueError).
Proof. reflexivity. Qed.

Example batch_size_negative :
  embed_documents sample_service (mkEmbeddingConfig "" (-1) ∅) five_texts empty_world
  = (empty_world, inr []).
Proof. reflexivity. Qed.

Lemma healthy_disk_writes : disk_writes healthy_disk.
Proof. by repeat split. Qed.

Lemma build_metadata_list_witness :
  ∃ w' final files entries,
    build healthy_disk sample_builder sample_documents sample_embeddings empty_world
    = (w', inr final)
    ∧ fs w' !! (base_path sample_builder, final) = Some (Directory files)
    ∧ files !! "metadata.json" = Some (MetadataFile entries)
    ∧ length entries = length sample_documents
    ∧ ∀ (i : nat) (doc : Document), sample_documents !! i = Some doc →
        ∃ entry, entries !! i = Some entry
          ∧ entry !! "id" = Some (PInt (Z.of_nat i))
          ∧ entry !! "text" = Some (PStr (text doc))
          ∧ ∀ k, k ≠ "id" → k ≠ "text" → entry !! k = metadata doc !! k.
Proof.
  apply (build_metadata_list healthy_disk sample_builder sample_documents
           sample_embeddings empty_world (built_index (sample_float32 <$> sample_embeddings) 2)).
  - done.
  - reflexivity.
  - reflexivity.
  - apply healthy_disk_writes.
  - unfold naming_ends. vm_compute. discriminate.
Defined.

Lemma build_overwrites_text_and_id_witness :
  ∃ w' final files entries entry,
    build healthy_disk sample_builder sample_documents sample_embeddings empty_world
    = (w', inr final)
    ∧ fs w' !! (base_path sample_builder, final) = Some (Directory files)
    ∧ files !! "metadata.json" = Some (MetadataFile entries)
    ∧ entries !! 1%nat = Some entry
    ∧ entry !! "text" = Some (PStr "beta")
    ∧ entry !! "id" = Some (PInt 1)
    ∧ (∀ v, metadata clashing_document !! "text" = Some v → v ≠ PStr "beta" →
         entry !! "text" ≠ Some v)
    ∧ (∀ v, metadata clashing_document !! "id" = Some v → v ≠ PInt 1 →
         entry !! "id" ≠ Some v).
Proof.
  apply (build_overwrites_text_and_id healthy_disk sample_builder sample_documents
           sample_embeddings empty_world (built_index (sample_float32 <$> sample_embeddings) 2)
           1%nat clashing_document).
  - reflexivity.
  - reflexivity.
  - apply healthy_disk_writes.
  - unfold naming_ends. vm_compute. discriminate.
  - reflexivity.
  - left. by eexists.
Defined.

(** The rows of the index are 32-bit floats: 16777217 is stored as
    16777216. *)
Example float32_rounds :
  as_float32 healthy_disk (PList [PInt 16777217; PInt 5])
  = PList [PFloat (QArith_base.Qmake 16777216 1); PFloat (QArith_base.Qmake 5 1)].
Proof. reflexivity. Qed.

(** Two documents: one directory with the ids 0 and 1, in order. *)
Example ids_of_a_store :
  let r := build healthy_disk sample_builder sample_documents sample_embeddings
             empty_world in
  r.2 = inr "store1"
  ∧ (fmap (M := list) (λ entry : gmap string pyvalue, entry !! "id"))
      <$> stored_metadata r.1 "out" "store1"
    = Some [Some (PInt 0); Some (PInt 1)].
Proof. split; vm_compute; reflexivity. Qed.

(** The requested name is taken: the next store gets a suffix. *)
Example taken_name_gets_suffix :
  let w1 := (build healthy_disk sample_builder sample_documents sample_embeddings
               world_with_choices).1 in
  (build healthy_disk sample_builder sample_documents sample_embeddings w1).2
  = inr "store1_ABCD".
Proof. vm_compute. reflexivity. Qed.

Lemma build_checks_its_input_witness :
  build healthy_disk sample_builder sample_documents [PList [PInt 5]] empty_world
  = (empty_world, inl (CardinalityError 2 1))
  ∧ build healthy_disk sample_builder [] [] empty_world
    = (empty_world, inl EmptyInputError).
Proof.
  split.
  - apply (proj1 (build_checks_its_input healthy_disk sample_builder
                    sample_documents [PList [PInt 5]] empty_world)).
    simpl. lia.
  - by apply (proj2 (build_checks_its_input healthy_disk sample_builder
                       [] [] empty_world)).
Defined.


Lemma session_id_stamped_witness :
  ∃ documents,
    collect_documents sample_sources sample_config empty_world
    = (empty_world, inr documents)
    ∧ Forall (λ doc, metadata doc !! "session_id" = Some (PStr "session-1"))
        documents
    ∧ Forall2 (λ before doc,
                 text doc = text before
                 ∧ ∀ k, k ≠ "session_id" → metadata doc !! k = metadata before !! k)
        sample_documents documents.
Proof.
  apply (session_id_stamped sample_sources sample_config empty_world empty_world
           sample_documents "session-1").
  - reflexivity.
  - vm_compute. reflexivity.
Defined.

Lemma no_documents_before_embedding_witness :
  ∃ evs,
    run_pipeline sample_sources sample_service healthy_disk repository_config
      empty_world
    = (after_events evs empty_world, inl NoDocumentsError)
    ∧ Forall collection_event evs
    ∧ (git_settings repository_config = None →
       confluence_settings repository_config = None → evs = []).
Proof.
  apply (no_documents_before_embedding sample_sources sample_service healthy_disk
           repository_config empty_world).
  reflexivity.
Defined.

(** With only a repository configured, and that repository empty, the
    run ends with [NoDocumentsError] after the clone. *)
Lemma clone_precedes_no_documents :
  sources_yield_nothing sample_sources repository_config = true
  ∧ ¬ fails_before_any_network_call sample_sources sample_service healthy_disk
        repository_config empty_world.
Proof.
  split; [reflexivity|]. intros (w' & Hrun & Hno).
  assert (trace w' = [EvClone "https://example.org/repo.git"]) as Htrace.
  { apply (f_equal (λ r, trace r.1)) in Hrun. simpl in Hrun. rewrite <- Hrun.
    reflexivity. }
  specialize (Hno (EvClone "https://example.org/repo.git")).
  rewrite Htrace in Hno.
  assert (EvClone "https://example.org/repo.git" ∈ trace empty_world) as Hin
    by (apply Hno; [by left|done]).
  by apply elem_of_nil in Hin.
Qed.

Lemma response_shapes_and_counts_witness :
  run_pipeline sample_sources short_service healthy_disk sample_config empty_world
  = ((embed_documents short_service sample_embedding_config ["alpha"; "beta"]
        empty_world).1,
     inl (ResponseCountError 2 1))
  ∧ fs (embed_documents short_service sample_embedding_config ["alpha"; "beta"]
          empty_world).1 = ∅.
Proof.
  destruct response_shapes_and_counts as (_ & _ & _ & _ & _ & Hrun).
  destruct (Hrun sample_sources short_service healthy_disk sample_config
              empty_world empty_world
              (attach_session "session-1" <$> sample_documents)
              (embed_documents short_service sample_embedding_config
                 ["alpha"; "beta"] empty_world).1
              (ResponseCountError 2 1)) as (H1 & H2 & _).
  - vm_compute. reflexivity.
  - vm_compute. reflexivity.
  - split; [exact H1|exact H2].
Defined.

(** Items that hold no number are accepted: a list with a string in it
    is taken as the vector, and so is the null under ["embedding"];
    [embed_documents] returns them as its embeddings. *)
Lemma items_without_numbers_accepted :
  ¬ refuses_other_shapes
  ∧ ¬ worded_shape (PList [PStr "x"])
  ∧ ¬ worded_shape (PDict {["embedding" := PNone]})
  ∧ (embed_documents loose_service sample_embedding_config ["a"; "b"]
       empty_world).2
    = inr [PList [PStr "x"]; PNone].
Proof.
  assert (¬ worded_shape (PList [PStr "x"])) as Hlist.
  { intros [(items & [= <-] & Hall)|(fields & v & [=] & _)].
    apply Forall_cons in Hall as [Hx _]. discriminate Hx. }
  split; [|split; [done|split]].
  - intros Hrefuses. specialize (Hrefuses _ Hlist). discriminate Hrefuses.
  - intros [(items & [=] & _)|(fields & v & [= <-] & Hv & items & -> & _)].
    rewrite lookup_singleton_eq in Hv. discriminate Hv.
  - vm_compute. reflexivity.
Qed.



(* ================================================================== *)
(** * Further properties: the embedding client *)
(* ================================================================== *)

Lemma posts_app (config : EmbeddingConfig) (bs bs' : list (list string)) :
  posts config (bs ++ bs') = posts config bs ++ posts config bs'.
Proof. unfold posts. apply fmap_app. Qed.

(** The loop up to the first call that fails. *)
Lemma embed_loop_first_failure service config (documents : list string)
    (starts : list Z) (acc : list pyvalue) (w : world) (k : nat) (start : Z)
    (e : error) :
  starts !! k = Some start →
  (∀ (j : nat) sj, (j < k)%nat → starts !! j = Some sj →
     ∃ vs,
       outcome_of (batch_at config documents sj)
         (service
            (trace w ++ posts config (batch_at config documents <$> take j starts))
            (make_payload config (batch_at config documents sj)))
       = inr vs) →
  outcome_of (batch_at config documents start)
    (service
       (trace w ++ posts config (batch_at config documents <$> take k starts))
       (make_payload config (batch_at config documents start)))
  = inl e →
  embed_loop service config documents starts acc w
  = (after_events
       (posts config (batch_at config documents <$> take (S k) starts)) w,
     inl e).
Proof.
  revert acc w k. induction starts as [|s0 starts IH]; intros acc w k Hk Hbefore Hfail;
    [done|].
  rewrite embed_loop_step, embed_batch_run. destruct k as [|k].
  - injection Hk as ->. simpl in Hfail. rewrite app_nil_r in Hfail.
    by rewrite Hfail.
  - destruct (Hbefore 0%nat s0 ltac:(lia) eq_refl) as [vs Hvs].
    simpl in Hvs. rewrite app_nil_r in Hvs. rewrite Hvs.
    rewrite (IH _ _ k); [| done | |].
    + unfold after_events, after_post. simpl. by rewrite <- app_assoc.
    + intros j sj Hj Hsj. destruct (Hbefore (S j) sj ltac:(lia) Hsj) as [vs' Hvs'].
      exists vs'. simpl in Hvs' |- *. by rewrite <- app_assoc.
    + simpl in Hfail |- *. by rewrite <- app_assoc.
Qed.

(** Property X1.  embed_documents stops at the first batch that fails.
    With a positive batch size, if the calls for the first k batches are
    answered acceptably and the call for batch k fails with an exception
    e, then embed_documents raises e after exactly k+1 requests: the
    requests for batches 0..k, in order, and none for any later batch. *)
Theorem embed_documents_first_failure service config (texts : list string)
    (w : world) (k : nat) (batch : list string) (e : error) :
  0 < batch_size config →
  batches config texts !! k = Some batch →
  (∀ (j : nat) bj, (j < k)%nat → batches config texts !! j = Some bj →
     ∃ vs,
       outcome_of bj
         (service (trace w ++ posts config (take j (batches config texts)))
            (make_payload config bj))
       = inr vs) →
  outcome_of batch
    (service (trace w ++ posts config (take k (batches config texts)))
       (make_payload config batch))
  = inl e →
  embed_documents service config texts w
  = (after_events (posts config (take (S k) (batches config texts))) w, inl e).
Proof.
  intros Hb Hk Hbefore Hfail.
  assert (texts ≠ []) as Hne.
  { intros ->. rewrite batches_starts in Hk by done. simpl in Hk.
    rewrite Z.div_small in Hk by lia. done. }
  rewrite embed_documents_nonempty by done.
  rewrite batches_starts in * by done.
  set (starts := _ <$> seq _ _) in *.
  rewrite list_lookup_fmap in Hk.
  destruct (starts !! k) as [start|] eqn:Hstart; [|done]. injection Hk as <-.
  rewrite (embed_loop_first_failure service config texts starts [] w k start e).
  - by rewrite fmap_take.
  - done.
  - intros j sj Hj Hsj. rewrite fmap_take. apply (Hbefore j); [done|].
    by rewrite list_lookup_fmap, Hsj.
  - by rewrite fmap_take.
Qed.

(** What the loop has done when it ends, however it ends. *)
Lemma embed_loop_outcome service config (documents : list string)
    (starts : list Z) (acc : list pyvalue) (w : world) :
  ∃ bs x,
    embed_loop service config documents starts acc w
    = (after_events (posts config bs) w, x)
    ∧ match x with
      | inr _ => bs = batch_at config documents <$> starts
      | inl _ => ∃ k : nat, (k < length starts)%nat
                 ∧ bs = take (S k) (batch_at config documents <$> starts)
      end.
Proof.
  revert acc w. induction starts as [|start starts IH]; intros acc w.
  - exists [], (inr acc). simpl. by rewrite after_events_nil.
  - rewrite embed_loop_step, embed_batch_run.
    destruct (outcome_of _ _) as [e|vs].
    + exists [batch_at config documents start], (inl e). split; [done|].
      exists 0%nat. simpl. split; [lia|]. by rewrite take_0.
    + destruct (IH (acc ++ vs) (after_post config (batch_at config documents start) w))
        as (bs & x & -> & Hx).
      exists (batch_at config documents start :: bs), x. split.
      * unfold after_events, after_post. simpl. by rewrite <- app_assoc.
      * destruct x as [e|vs']; [|by rewrite Hx].
        destruct Hx as (k & Hk & ->). exists (S k). simpl. split; [lia|done].
Qed.

(** Property X2.  Whatever the service does, the requests
    embed_documents sends are a prefix of the batches of its input, in
    order, one request per batch, and nothing else of the world changes;
    when it returns vectors, a request was sent for every batch. *)
Theorem embed_documents_calls service config (texts : list string) (w : world) :
  ∃ bs x,
    embed_documents service config texts w = (after_events (posts config bs) w, x)
    ∧ bs `prefix_of` batches config texts
    ∧ (∀ vectors, x = inr vectors → bs = batches config texts).
Proof.
  destruct texts as [|t texts].
  { exists [], (inr []). simpl. rewrite after_events_nil. split; [done|].
    split; [apply prefix_nil|]. intros _ _. unfold batches. simpl.
    unfold py_range, py_range_length. repeat case_decide; simpl; try done; lia. }
  unfold embed_documents, batches. rewrite bind_run.
  destruct (py_range _ _ _) as [starts|]; simpl.
  - destruct (embed_loop_outcome service config (t :: texts) starts [] w)
      as (bs & x & Hrun & Hx).
    exists bs, x. split; [exact Hrun|]. destruct x as [e|vs].
    + destruct Hx as (k & Hk & ->). split; [apply prefix_take|done].
    + subst bs. done.
  - exists [], (inl PyValueError). rewrite after_events_nil. split; [done|].
    split; [apply prefix_nil|done].
Qed.

(** Property X3.  batch_size is not validated. For a non-empty input, a
    batch size of 0 makes embed_documents fail with the ValueError of
    range() before any request, and a negative batch size makes it
    return the empty list without any request, so no text is embedded
    and no error is raised. *)
Theorem embed_documents_nonpositive_batch service config (texts : list string)
    (w : world) :
  texts ≠ [] →
  (batch_size config = 0 →
   embed_documents service config texts w = (w, inl PyValueError))
  ∧ (batch_size config < 0 →
     embed_documents service config texts w = (w, inr [])).
Proof.
  intros Hne. destruct texts as [|t texts]; [done|].
  unfold embed_documents. rewrite !bind_run. unfold py_range, py_range_length.
  split; intros Hb.
  - by rewrite decide_True.
  - rewrite decide_False by lia. rewrite decide_False by lia.
    rewrite decide_False by (simpl; lia). done.
Qed.

(** Property X4.  How a malformed response body is treated: a body
    without a 'data' field counts as zero embeddings (accepted for an
    empty batch, the response-count error otherwise); a body that is not
    an object raises AttributeError; a 'data' value that cannot be
    iterated raises TypeError; a non-empty string as 'data' is iterated
    by characters and refused with the response-format error. *)
Theorem parse_response_malformed (batch : list string) :
  (* no "data" field: as if it were the empty list *)
  (∀ fields, fields !! "data" = None →
     parse_response batch (PDict fields)
     = if decide (batch = []) then inr []
       else inl (ResponseCountError (length batch) 0))
  (* the response is not an object *)
  ∧ (∀ data, (∀ fields, data ≠ PDict fields) →
       parse_response batch data = inl PyAttributeError)
  (* the field cannot be iterated *)
  ∧ (∀ fields v, fields !! "data" = Some v → py_iter v = None →
       parse_response batch (PDict fields) = inl PyTypeError)
  (* the field is a string: its characters are the items *)
  ∧ (∀ fields s, fields !! "data" = Some (PStr s) → s ≠ "" →
       parse_response batch (PDict fields) = inl ResponseFormatError).
Proof.
  split; [|split; [|split]].
  - intros fields Hno. unfold parse_response. rewrite Hno. simpl.
    destruct batch; simpl; [done|]. by repeat case_decide.
  - intros data Hno. destruct data; try done. by destruct (Hno fields).
  - intros fields v Hv Hiter. unfold parse_response. rewrite Hv. simpl.
    by rewrite Hiter.
  - intros fields s Hv Hs. unfold parse_response. rewrite Hv. simpl.
    destruct s; [done|]. done.
Qed.

(** Property X5.  The request payload is the model_kwargs of the
    configuration plus the field 'input' holding the batch; an entry of
    model_kwargs named 'input' replaces the batch, since update() is
    applied after the field is set. *)
Theorem make_payload_lookup config (batch : list string) (k : string) :
  make_payload config batch !! k
  = match model_kwargs config !! k with
    | Some v => Some v
    | None => if decide (k = "input") then Some (PList (PStr <$> batch)) else None
    end.
Proof.
  unfold make_payload. rewrite lookup_union.
  destruct (model_kwargs config !! k) as [v|] eqn:Hk; simpl.
  - by destruct ({["input" := PList (PStr <$> batch)]} !! k).
  - case_decide as Hi.
    + subst k. by rewrite lookup_singleton_eq.
    + by rewrite lookup_singleton_ne.
Qed.

(* ================================================================== *)
(** * Further properties: naming a store *)
(* ================================================================== *)

Lemma string_get_in (s : string) (n : nat) (c : ascii) :
  String.get n s = Some c → In c (String.list_ascii_of_string s).
Proof.
  revert n. induction s as [|a s IH]; intros [|n]; simpl; try done.
  - intros [= ->]. by left.
  - intros H. right. by eapply IH.
Qed.

Lemma string_get_lt (s : string) (n : nat) :
  (n < String.length s)%nat → is_Some (String.get n s).
Proof.
  revert n. induction s as [|a s IH]; intros [|n]; simpl; try lia.
  - by eexists.
  - intros H. apply IH. lia.
Qed.

Lemma list_ascii_of_string_of_list (cs : list ascii) :
  String.list_ascii_of_string (String.string_of_list_ascii cs) = cs.
Proof. induction cs as [|c cs IH]; simpl; congruence. Qed.

Lemma choice_in_population (population : string) (i : nat) :
  population ≠ "" →
  In (default "A"%char
        (String.get (i mod String.length population)%nat population))
     (String.list_ascii_of_string population).
Proof.
  intros Hne.
  destruct (string_get_lt population (i mod String.length population)%nat)
    as [c Hc].
  { apply Nat.mod_upper_bound. by destruct population. }
  rewrite Hc. simpl. by eapply string_get_in.
Qed.

Lemma random_suffix_drawn (k : nat) (w : world) :
  (k ≤ length (rng w))%nat →
  ∃ suffix,
    random_suffix k w = (with_rng (drop k (rng w)) w, inr suffix)
    ∧ String.length suffix = k
    ∧ drawn_from alphabet suffix.
Proof.
  intros Hk.
  unfold random_suffix, random_choices. rewrite !bind_run. simpl.
  rewrite decide_True by done. simpl. eexists. split; [reflexivity|]. split.
  - rewrite string_of_list_ascii_length, length_fmap, length_take. lia.
  - intros c. rewrite list_ascii_of_string_of_list.
    intros Hin. apply list_elem_of_In, list_elem_of_fmap in Hin as (i & -> & _).
    by apply (choice_in_population alphabet i).
Qed.

(** Property X6.  random_suffix(k) consumes exactly k choices of the
    generator and returns a string of exactly k characters, each one an
    upper-case letter or a digit of the alphabet; nothing else of the
    world changes. *)
Theorem random_suffix_characters (k : nat) (w : world) :
  if decide (k ≤ length (rng w))%nat
  then ∃ suffix,
         random_suffix k w = (with_rng (drop k (rng w)) w, inr suffix)
         ∧ String.length suffix = k
         ∧ drawn_from alphabet suffix
  else random_suffix k w = (w, inl FuelExhausted).
Proof.
  case_decide as Hk.
  - by apply random_suffix_drawn.
  - apply random_suffix_short. lia.
Qed.



(* ================================================================== *)
(** * Further properties: building a store *)
(* ================================================================== *)







(** Property X10.  The two input errors of build characterise its input
    exactly: the empty-input error is raised if and only if there are no
    documents and no vectors, a cardinality error if and only if the two
    lengths differ. Because the length check comes first, documents
    without any vector give the cardinality error, not the empty-input
    error. *)
Theorem build_input_errors (disk : storage_behaviour) (self : VectorStoreBuilder)
    (documents : list Document) (embeddings : list pyvalue) (w : world) :
  let x := (build disk self documents embeddings w).2 in
  (x = inl EmptyInputError ↔ documents = [] ∧ embeddings = [])
  ∧ ((∃ a b, x = inl (CardinalityError a b))
     ↔ length documents ≠ length embeddings)
  ∧ (embeddings = [] → documents ≠ [] →
     x = inl (CardinalityError (length documents) 0)).
Proof.
  intros x. subst x. rewrite build_refused. case_decide as Hlen; simpl.
  { split; [|split].
    - split; [done|]. intros [-> ->]. done.
    - split; [done|]. eauto.
    - by intros ->. }
  assert (length documents = length embeddings) as Heq
    by (by destruct (decide (length documents = length embeddings))).
  destruct embeddings as [|first rest]; simpl.
  { destruct documents; [|done]. split; [done|]. split; [|done].
    split; [by intros (? & ? & ?)|done]. }
  assert (∀ y : error + string,
            (∀ e, y = inl e → e ≠ EmptyInputError ∧ ∀ a b, e ≠ CardinalityError a b) →
            (y = inl EmptyInputError ↔ documents = [] ∧ first :: rest = [])
            ∧ ((∃ a b, y = inl (CardinalityError a b))
               ↔ length documents ≠ length (first :: rest))
            ∧ (first :: rest = [] → documents ≠ [] →
               y = inl (CardinalityError (length documents) 0))) as Hother.
  { intros y Hy. split; [|split; [|done]].
    - split; [|by intros [_ ?]]. intros ->. by destruct (Hy _ eq_refl).
    - split; [|done]. intros (a & b & ->). destruct (Hy _ eq_refl) as [_ Hc].
      by destruct (Hc a b). }
  destruct (py_len first) as [d|] eqn:Hd; [|apply Hother; by intros e [= <-]].
  destruct (index_accepts disk d (first :: rest)) eqn:Hacc;
    [|apply Hother; by intros e [= <-]].
  apply Hother. intros e.
  rewrite (build_run disk self documents _ w first rest d) by done.
  cbv zeta.
  destruct (resolved_cases self w) as [[->|(final & -> & _)] _];
    [by intros [= <-]|].
  destruct (mkdir_succeeds disk); [|by intros [= <-]].
  destruct (persisted disk _ _) as [files [stage|]]; simpl; [|done].
  by intros [= <-].
Qed.

(* ================================================================== *)
(** * Further properties: collecting documents *)
(* ================================================================== *)

Lemma parse_files_result (src : sources) (paths : list string)
    (documents : list Document) (w : world) :
  parse_files src paths documents w
  = (w, if existsb (parser_raises src) paths then inl SourceError
        else inr (documents ++ concat (documents_of src <$> paths))).
Proof.
  revert documents. induction paths as [|p paths IH]; intros documents; simpl.
  - by rewrite app_nil_r.
  - unfold parser_raises at 1, documents_of at 1.
    destruct (parse_file src p) as [[docs|]|]; simpl; [| done |]; rewrite IH;
      destruct (existsb _ _); try done. by rewrite app_assoc.
Qed.

(** Property X11.  In the file loop of collect_documents a file whose
    extension has no parser contributes nothing and changes nothing: the
    loop over a list of files equals the loop over the files that have a
    parser. If no parser raises, the result is the documents of the
    files in order; if some parser raises, the loop ends with that
    exception. *)
Theorem parse_files_skips_unsupported (src : sources) (paths : list string)
    (documents : list Document) (w : world) :
  parse_files src paths documents w
  = parse_files src (filter (λ p, is_Some (parse_file src p)) paths) documents w
  ∧ (existsb (parser_raises src) paths = false →
     parse_files src paths documents w
     = (w, inr (documents ++ concat (documents_of src <$> paths))))
  ∧ (existsb (parser_raises src) paths = true →
     parse_files src paths documents w = (w, inl SourceError)).
Proof.
  split; [|rewrite parse_files_result; split; by intros ->].
  revert documents. induction paths as [|p paths IH]; intros documents; [done|].
  rewrite filter_cons. simpl. destruct (parse_file src p) as [o|] eqn:Hp.
  - rewrite decide_True by eauto. simpl. rewrite Hp. destruct o; [apply IH|done].
  - rewrite decide_False by (by intros [? ?]). apply IH.
Qed.

(** The three blocks, when their sources return. *)
Lemma gather_result (src : sources) (config : AppConfig) (w : world) :
  ∃ evs,
    gather src config w
    = (after_events evs w,
       match filesystem_documents src config with
       | None => inl SourceError
       | Some F =>
           match repository_documents src config with
           | None => inl SourceError
           | Some G =>
               match wiki_documents src config with
               | None => inl SourceError
               | Some C => inr (F ++ G ++ C)
               end
           end
       end)
    ∧ Forall collection_event evs
    ∧ (filesystem_documents src config = None → evs = [])
    ∧ (repository_documents src config = None → ∀ key, EvListPages key ∉ evs)
    ∧ (∀ url, EvClone url ∈ evs → is_Some (git_settings config))
    ∧ (∀ key, EvListPages key ∈ evs → is_Some (confluence_settings config)).
Proof.
  unfold gather. rewrite bind_run.
  assert ((match truthy (files_location config) with
     | Some path =>
         match kind_of src path with
         | IsFile => parse_files src [path] []
         | IsDir => parse_files src (list_files src path) []
         | Missing => mret []
         end
     | None => mret []
     end : M (list Document)) w
    = (w, match filesystem_documents src config with
          | None => inl SourceError
          | Some F => inr F
          end)) as ->.
  { unfold filesystem_documents, files_to_parse.
    destruct (truthy _) as [path|]; [|done].
    destruct (kind_of src path); [| |done]; rewrite parse_files_result;
      by destruct (existsb _ _). }
  destruct (filesystem_documents src config) as [F|].
  2:{ exists []. rewrite after_events_nil. split; [done|]. split; [done|].
      split; [done|]. split; [intros _ key Hin; by apply elem_of_nil in Hin|].
      split; intros ? Hin; by apply elem_of_nil in Hin. }
  rewrite bind_run. unfold repository_documents, wiki_documents.
  destruct (git_settings config) as [gs|]; simpl.
  - unfold git_process. destruct (git_available src); simpl.
    + rewrite !bind_run. simpl.
      destruct (git_documents src gs) as [G|]; simpl.
      * destruct (confluence_settings config) as [cs|]; simpl.
        -- unfold confluence_process. destruct (confluence_available src); simpl.
           ++ exists [EvClone (git_url gs); EvListPages (space_key cs)].
              rewrite !bind_run. simpl. split.
              { unfold after_events. simpl. by rewrite <- !app_assoc, app_assoc. }
              split; [by repeat constructor|]. split; [done|]. split; [done|].
              split; intros; by eexists.
           ++ exists [EvClone (git_url gs)]. rewrite !bind_run. simpl.
              split; [done|]. split; [by repeat constructor|]. split; [done|].
              split; [done|]. split; intros ? Hin; [by eexists|by eexists].
        -- exists [EvClone (git_url gs)]. split; [by rewrite app_nil_r|].
           split; [by repeat constructor|]. split; [done|]. split; [done|].
           split; intros ? Hin; [by eexists|].
           apply list_elem_of_singleton in Hin. done.
      * exists [EvClone (git_url gs)]. split; [done|].
        split; [by repeat constructor|]. split; [done|].
        split; [intros _ key Hin; by apply list_elem_of_singleton in Hin|].
        split; intros ? Hin; [by eexists|].
        apply list_elem_of_singleton in Hin. done.
    + exists []. rewrite after_events_nil. split; [done|]. split; [done|].
      split; [done|]. split; [intros _ key Hin; by apply elem_of_nil in Hin|].
      split; intros ? Hin; by apply elem_of_nil in Hin.
  - destruct (confluence_settings config) as [cs|]; simpl.
    + unfold confluence_process. destruct (confluence_available src); simpl.
      * exists [EvListPages (space_key cs)]. rewrite !bind_run. simpl.
        split; [done|]. split; [by repeat constructor|]. split; [done|].
        split; [done|]. split; intros ? Hin; [|by eexists].
        apply list_elem_of_singleton in Hin. done.
      * exists []. rewrite after_events_nil, !bind_run. simpl. split; [done|].
        split; [done|]. split; [done|]. split; [done|].
        split; intros ? Hin; by apply elem_of_nil in Hin.
    + exists []. rewrite after_events_nil, !app_nil_r. split; [done|].
      split; [done|]. split; [done|]. split; [done|].
      split; intros ? Hin; by apply elem_of_nil in Hin.
Qed.

Lemma collect_documents_result (src : sources) (config : AppConfig) (w : world) :
  ∃ evs,
    collect_documents src config w
    = (after_events evs w,
       match filesystem_documents src config, repository_documents src config,
             wiki_documents src config with
       | Some F, Some G, Some C =>
           match F ++ G ++ C with
           | [] => inl NoDocumentsError
           | documents => inr (stamped config documents)
           end
       | _, _, _ => inl SourceError
       end)
    ∧ Forall collection_event evs
    ∧ (filesystem_documents src config = None → evs = [])
    ∧ (repository_documents src config = None → ∀ key, EvListPages key ∉ evs)
    ∧ (∀ url, EvClone url ∈ evs → is_Some (git_settings config))
    ∧ (∀ key, EvListPages key ∈ evs → is_Some (confluence_settings config)).
Proof.
  destruct (gather_result src config w) as (evs & Hg & Hevs).
  exists evs. split; [|done]. rewrite collect_documents_gather, Hg.
  destruct (filesystem_documents src config) as [F|]; [|done].
  destruct (repository_documents src config) as [G|]; [|done].
  destruct (wiki_documents src config) as [C|]; [|done].
  by destruct (F ++ G ++ C).
Qed.

(** Property X12.  When the three sources return, collect_documents
    returns the documents of the file system, then those of the
    repository, then those of Confluence, each group in its own order,
    every document stamped with the session identifier when one is set;
    the events it causes are only those of collection. *)
Theorem collect_documents_in_source_order (src : sources) (config : AppConfig)
    (w : world) (F G C : list Document) :
  filesystem_documents src config = Some F →
  repository_documents src config = Some G →
  wiki_documents src config = Some C →
  F ++ G ++ C ≠ [] →
  ∃ evs,
    collect_documents src config w
    = (after_events evs w, inr (stamped config (F ++ G ++ C)))
    ∧ Forall collection_event evs.
Proof.
  intros HF HG HC Hne.
  destruct (collect_documents_result src config w) as (evs & Hrun & Hevs & _).
  exists evs. split; [|done]. rewrite Hrun, HF, HG, HC.
  by destruct (F ++ G ++ C).
Qed.

(** Property X13.  collect_documents never returns an empty list: it
    either returns at least one document or raises, and the only
    exceptions it ends with are that of a source and the no-documents
    error. *)
Theorem collect_documents_never_empty (src : sources) (config : AppConfig)
    (w : world) :
  match (collect_documents src config w).2 with
  | inr documents => documents ≠ []
  | inl e => e = SourceError ∨ e = NoDocumentsError
  end.
Proof.
  destruct (collect_documents_result src config w) as (evs & -> & _). simpl.
  destruct (filesystem_documents src config) as [F|]; [|by left].
  destruct (repository_documents src config) as [G|]; [|by left].
  destruct (wiki_documents src config) as [C|]; [|by left].
  destruct (F ++ G ++ C) as [|doc docs] eqn:Hall; [by right|].
  unfold stamped. destruct (truthy (session_id config)); done.
Qed.

(** Property X14.  An empty session identifier is the same as none (no
    document is stamped), and an empty files_location is the same as
    none (the file system is not read): collect_documents tests both for
    truth, not for None. *)
Theorem empty_strings_are_absent (src : sources) (config : AppConfig) (w : world) :
  (session_id config = Some "" →
   collect_documents src config w
   = collect_documents src (without_session config) w)
  ∧ (files_location config = Some "" →
     collect_documents src config w
     = collect_documents src (without_files_location config) w).
Proof.
  split; intros Hempty.
  - rewrite !collect_documents_gather.
    change (gather src (without_session config) w) with (gather src config w).
    destruct (gather src config w) as [w1 [e|[|doc docs]]]; try done.
    by rewrite Hempty.
  - unfold collect_documents. by rewrite Hempty.
Qed.

(** Property X15.  A failing source ends the collection: when a parser
    raises, collect_documents raises without asking the repository or
    Confluence and without any event; when the repository fails, it
    raises and Confluence is never listed. *)
Theorem failing_source_stops_collection (src : sources) (config : AppConfig)
    (w : world) :
  (* a parser raises: nothing else is asked *)
  (filesystem_documents src config = None →
   collect_documents src config w = (w, inl SourceError))
  (* the repository fails: the wiki is not asked *)
  ∧ (repository_documents src config = None →
     ∃ evs, collect_documents src config w = (after_events evs w, inl SourceError)
       ∧ ∀ key, EvListPages key ∉ evs).
Proof.
  destruct (collect_documents_result src config w)
    as (evs & Hrun & _ & Hfiles & Hrepo & _).
  split.
  - intros HF. rewrite Hrun, HF, (Hfiles HF). by rewrite after_events_nil.
  - intros HG. exists evs. split; [|by apply Hrepo].
    rewrite Hrun, HG. by destruct (filesystem_documents src config).
Qed.

(* ================================================================== *)
(** * Further properties: the whole run *)
(* ================================================================== *)

Lemma collect_documents_returns_some (src : sources) (config : AppConfig)
    (w w' : world) (documents : list Document) :
  collect_documents src config w = (w', inr documents) → documents ≠ [].
Proof.
  rewrite collect_documents_gather.
  destruct (gather src config w) as [w1 [e|[|doc docs]]]; try done.
  intros [= _ <-]. by destruct (truthy (session_id config)).
Qed.




(** Property X17.  run_pipeline does not validate the batch size: once
    documents are collected, a batch size of 0 ends the run with the
    ValueError of range(), and a negative batch size ends it with the
    cardinality error of build (as many documents, zero vectors), in
    both cases without a request and without touching the disk. *)
Theorem run_pipeline_unchecked_batch_size src service disk config
    (w w1 : world) (documents : list Document) :
  collect_documents src config w = (w1, inr documents) →
  (batch_size (embedding_config config) = 0 →
   run_pipeline src service disk config w = (w1, inl PyValueError))
  ∧ (batch_size (embedding_config config) < 0 →
     run_pipeline src service disk config w
     = (w1, inl (CardinalityError (length documents) 0))).
Proof.
  intros Hrun. pose proof (collect_documents_returns_some _ _ _ _ _ Hrun) as Hne.
  assert (text <$> documents ≠ []) as Htexts by (by destruct documents).
  rewrite run_pipeline_stages, Hrun.
  destruct (text <$> documents) as [|t texts] eqn:Ht; [done|].
  unfold embed_documents. rewrite !bind_run. unfold py_range, py_range_length.
  split; intros Hb.
  - by rewrite decide_True.
  - rewrite decide_False by lia. rewrite decide_False by lia.
    rewrite decide_False by (simpl; lia). simpl.
    rewrite build_refused. rewrite decide_True; [done|].
    simpl. by destruct documents.
Qed.

(* ================================================================== *)
(** * Further properties: the repository handler *)
(* ================================================================== *)

Section LibraryFacts.
Variable lower : string → string.
Variable suffix : string → string.
Variable join : string → string → string.
Variable path_str : string → string.
Variable py_str : pyvalue → string.
Variable strip : string → string.
Variable lstrip_dot : string → string.

Lemma iter_directory_unlimited (settings : GitSettings) (root : string)
    (files : list string) (count : Z) :
  files_limit settings = None →
  iter_directory lower suffix join settings root files count
  = (kept_files lower suffix join settings root files,
     Some (count + Z.of_nat (length (kept_files lower suffix join settings root files)))).
Proof.
  intros Hlimit.
  assert (Hreach : ∀ c, limit_reached settings c = false).
  { intros c. unfold limit_reached. unfold files_limit in Hlimit.
    destruct (max_files settings) as [m|]; [|reflexivity].
    destruct (decide (m = 0)) as [->|]; [|discriminate].
    reflexivity. }
  revert count. unfold kept_files.
  induction files as [|filename rest IH]; intros count.
  - simpl. do 2 f_equal. lia.
  - simpl. rewrite filter_cons.
    destruct (skipped lower suffix settings filename) eqn:Hskip.
    + rewrite decide_False by done. apply IH.
    + rewrite decide_True by done. rewrite Hreach, IH.
      rewrite fmap_cons. simpl length. do 2 f_equal. lia.
Qed.

Lemma iter_directory_limited (settings : GitSettings) (root : string)
    (files : list string) (count m : Z) :
  max_files settings = Some m → m ≠ 0 →
  let kept := kept_files lower suffix join settings root files in
  let n := Z.to_nat (Z.max 1 (m - count)) in
  iter_directory lower suffix join settings root files count
  = if decide (length kept < n)%nat
    then (kept, Some (count + Z.of_nat (length kept)))
    else (take n kept, None).
Proof.
  intros Hm Hne. unfold kept_files.
  revert count. induction files as [|filename rest IH]; intros count.
  - simpl. rewrite decide_True by lia. do 2 f_equal. lia.
  - simpl. rewrite filter_cons.
    destruct (skipped lower suffix settings filename) eqn:Hskip.
    + rewrite (decide_False (P := true = false)) by done. apply IH.
    + rewrite (decide_True (P := false = false)) by done.
      rewrite fmap_cons. simpl length.
      unfold limit_reached. rewrite Hm.
      rewrite (bool_decide_eq_true_2 (m ≠ 0)) by done. simpl andb.
      destruct (bool_decide (m ≤ count + 1)) eqn:Hreach.
      * apply bool_decide_eq_true_1 in Hreach.
        replace (Z.to_nat (Z.max 1 (m - count))) with 1%nat by lia.
        rewrite decide_False by lia. done.
      * apply bool_decide_eq_false_1 in Hreach.
        rewrite IH.
        set (len := length (join root <$> filter (λ f, skipped lower suffix settings f = false) rest)).
        replace (Z.to_nat (Z.max 1 (m - count))) with (S (Z.to_nat (Z.max 1 (m - (count + 1))))) by lia.
        destruct (decide (len < Z.to_nat (Z.max 1 (m - (count + 1))))%nat).
        -- rewrite decide_True by lia. do 2 f_equal. lia.
        -- rewrite decide_False by lia. done.
Qed.

Lemma iter_walk_unlimited (settings : GitSettings)
    (walk : list (string * list string)) (count : Z) :
  files_limit settings = None →
  iter_walk lower suffix join settings walk count
  = kept_paths lower suffix join settings walk.
Proof.
  intros Hlimit. revert count. unfold kept_paths.
  induction walk as [|[root files] rest IH]; intros count; [done|].
  simpl. rewrite iter_directory_unlimited by done. by rewrite IH.
Qed.

Lemma iter_walk_limited (settings : GitSettings)
    (walk : list (string * list string)) (count m : Z) :
  max_files settings = Some m → m ≠ 0 →
  iter_walk lower suffix join settings walk count
  = take (Z.to_nat (Z.max 1 (m - count))) (kept_paths lower suffix join settings walk).
Proof.
  intros Hm Hne. revert count. unfold kept_paths.
  induction walk as [|[root files] rest IH]; intros count.
  - simpl. by destruct (Z.to_nat _).
  - simpl. rewrite (iter_directory_limited _ _ _ _ m) by done.
    set (kept := kept_files lower suffix join settings root files).
    set (n := Z.to_nat (Z.max 1 (m - count))).
    destruct (decide (length kept < n)%nat) as [Hlt|Hge].
    + rewrite IH. rewrite take_app_ge by lia. f_equal. f_equal. lia.
    + rewrite take_app_le by lia. done.
Qed.

Lemma iter_files_kept (settings : GitSettings)
    (walk : list (string * list string)) :
  iter_files lower suffix join settings walk
  = match files_limit settings with
    | None => kept_paths lower suffix join settings walk
    | Some n => take n (kept_paths lower suffix join settings walk)
    end.
Proof.
  unfold iter_files.
  destruct (files_limit settings) as [n|] eqn:Hlimit.
  - unfold files_limit in Hlimit.
    destruct (max_files settings) as [m|] eqn:Hm; [|done].
    destruct (decide (m = 0)); [done|]. injection Hlimit as <-.
    rewrite (iter_walk_limited _ _ _ m) by done. do 2 f_equal. lia.
  - by apply iter_walk_unlimited.
Qed.

Lemma kept_paths_elem (settings : GitSettings)
    (walk : list (string * list string)) (path : string) :
  path ∈ kept_paths lower suffix join settings walk ↔
  ∃ root files filename,
    (root, files) ∈ walk ∧ filename ∈ files
    ∧ skipped lower suffix settings filename = false
    ∧ path = join root filename.
Proof.
  unfold kept_paths, kept_files. split.
  - intros Hin. apply elem_of_concat_pieces in Hin as (piece & Hpath & Hpiece).
    apply list_elem_of_fmap in Hpiece as ([root files] & -> & Hentry).
    simpl in Hpath.
    apply list_elem_of_fmap in Hpath as (filename & -> & Hfile).
    apply list_elem_of_filter in Hfile as [Hskip Hfile].
    by exists root, files, filename.
  - intros (root & files & filename & Hentry & Hfile & Hskip & ->).
    apply elem_of_concat_pieces. eexists. split.
    2: { apply list_elem_of_fmap. by exists (root, files). }
    simpl. apply list_elem_of_fmap. exists filename. split; [done|].
    by apply list_elem_of_filter.
Qed.

Lemma skipped_false (settings : GitSettings) (filename : string) :
  skipped lower suffix settings filename = false ↔
  (∀ exts, exclude_extensions settings = Some exts →
     lower (suffix filename) ∉ lower <$> exts)
  ∧ (∀ exts, include_extensions settings = Some exts → exts ≠ [] →
     lower (suffix filename) ∈ lower <$> exts).
Proof.
  unfold skipped, lowered_extensions.
  rewrite orb_false_iff. split.
  - intros [Hex Hin]. split.
    + intros exts Heq. rewrite Heq in Hex.
      destruct exts as [|e exts]; [by rewrite fmap_nil; apply not_elem_of_nil|].
      by apply bool_decide_eq_false_1 in Hex.
    + intros exts Heq Hne. rewrite Heq in Hin.
      destruct exts as [|e exts]; [done|].
      apply negb_false_iff in Hin. by apply bool_decide_eq_true_1 in Hin.
  - intros [Hex Hin]. split.
    + destruct (exclude_extensions settings) as [[|e exts]|]; [done| |done].
      apply bool_decide_eq_false_2. by apply Hex.
    + destruct (include_extensions settings) as [[|e exts]|]; [done| |done].
      apply negb_false_iff, bool_decide_eq_true_2. by apply Hin.
Qed.

(** Property X18.  iter_files yields the paths of the files that pass
    the extension filters, in the order of the walk; without max_files,
    or with max_files 0, all of them, otherwise the first max(1,
    max_files) of them: the limit is tested after a yield, so a negative
    max_files still yields one file. *)
Theorem iter_files_limit_and_order (settings : GitSettings)
    (walk : list (string * list string)) :
  iter_files lower suffix join settings walk
  = match max_files settings with
    | None => kept_paths lower suffix join settings walk
    | Some m =>
        if decide (m = 0) then kept_paths lower suffix join settings walk
        else take (Z.to_nat (Z.max 1 m)) (kept_paths lower suffix join settings walk)
    end.
Proof.
  rewrite iter_files_kept. unfold files_limit.
  destruct (max_files settings) as [m|]; [|done].
  by destruct (decide (m = 0)).
Qed.

(** Property X19.  Every path iter_files yields is a file of the walk
    joined to its directory, whose lower-cased extension is in none of
    the lower-cased exclude extensions and, when the include list is not
    empty, is one of the lower-cased include extensions; exclusion wins
    over inclusion. *)
Theorem iter_files_respects_filters (settings : GitSettings)
    (walk : list (string * list string)) (path : string) :
  path ∈ iter_files lower suffix join settings walk →
  ∃ root files filename,
    (root, files) ∈ walk ∧ filename ∈ files ∧ path = join root filename
    ∧ (∀ exts, exclude_extensions settings = Some exts →
         lower (suffix filename) ∉ lower <$> exts)
    ∧ (∀ exts, include_extensions settings = Some exts → exts ≠ [] →
         lower (suffix filename) ∈ lower <$> exts).
Proof.
  rewrite iter_files_kept. intros Hin.
  assert (Hkept : path ∈ kept_paths lower suffix join settings walk).
  { destruct (files_limit settings); [|done].
    apply elem_of_take in Hin as (i & Hi & _).
    by eapply list_elem_of_lookup_2. }
  apply kept_paths_elem in Hkept as (root & files & filename & H1 & H2 & H3 & ->).
  apply skipped_false in H3 as [Hex Hinc].
  by exists root, files, filename.
Qed.

(** Property X30.  list_files raises ValueError for a path that is not a
    directory; for a directory it lists, in the order of the walk, every
    file joined to its directory, which is exactly what iter_files
    yields for the same walk when no extension filter and no file limit
    is set (absent or empty lists, max_files absent or 0). *)
Theorem list_files_is_unfiltered_iter_files (walk : list (string * list string)) :
  list_files_of_walk join false walk = inl PyValueError
  ∧ ∀ settings,
      (exclude_extensions settings = None ∨ exclude_extensions settings = Some []) →
      (include_extensions settings = None ∨ include_extensions settings = Some []) →
      (max_files settings = None ∨ max_files settings = Some 0) →
      list_files_of_walk join true walk
      = inr (iter_files lower suffix join settings walk).
Proof.
  split; [done|]. intros settings Hex Hin Hmax.
  rewrite iter_files_kept.
  assert (files_limit settings = None) as ->.
  { unfold files_limit. by destruct Hmax as [->| ->]. }
  assert (Hskip : ∀ filename, skipped lower suffix settings filename = false).
  { intros filename. unfold skipped.
    by destruct Hex as [->| ->], Hin as [->| ->]. }
  unfold list_files_of_walk, kept_paths, kept_files. simpl. do 2 f_equal.
  apply list_fmap_ext. intros i [root files] _. simpl. f_equal.
  clear -Hskip. induction files as [|filename rest IH]; [done|].
  rewrite filter_cons_True by apply Hskip. by rewrite <- IH.
Qed.

End LibraryFacts.

(* ================================================================== *)
(** * Further properties: Confluence, documents and the parsers *)
(* ================================================================== *)

Section CollaboratorFacts.
Variable lower : string → string.
Variable suffix : string → string.
Variable join : string → string → string.
Variable path_str : string → string.
Variable py_str : pyvalue → string.
Variable strip : string → string.
Variable lstrip_dot : string → string.

Lemma fetch_pages_take (html_to_text : pyvalue → option string)
    (settings : ConfluenceSettings) (client : confluence_client)
    (pages : list (gmap string pyvalue)) (count : Z) (documents : list Document) :
  fetch_pages py_str html_to_text settings client pages count documents
  = documents
    ++ match max_pages_or_inf settings with
       | None => omap (page_document py_str html_to_text settings client) pages
       | Some m =>
           take (Z.to_nat (m - count))
             (omap (page_document py_str html_to_text settings client) pages)
       end.
Proof.
  revert count documents.
  induction pages as [|page rest IH]; intros count documents.
  - simpl. destruct (max_pages_or_inf settings); [|by rewrite app_nil_r].
    by rewrite take_nil, app_nil_r.
  - simpl fetch_pages. simpl omap.
    destruct (max_pages_or_inf settings) as [m|] eqn:Hmax.
    + destruct (bool_decide (m ≤ count)) eqn:Hreach.
      * apply bool_decide_eq_true_1 in Hreach.
        replace (Z.to_nat (m - count)) with 0%nat by lia.
        by rewrite take_0, app_nil_r.
      * apply bool_decide_eq_false_1 in Hreach.
        destruct (page_document py_str html_to_text settings client page) as [doc|].
        -- rewrite IH, <- app_assoc. f_equal.
           replace (Z.to_nat (m - count)) with (S (Z.to_nat (m - (count + 1)))) by lia.
           done.
        -- by rewrite IH.
    + destruct (page_document py_str html_to_text settings client page) as [doc|].
      * by rewrite IH, <- app_assoc.
      * by rewrite IH.
Qed.

(** Property X20.  ConfluenceSpaceHandler.process returns no document
    when the listing fails; otherwise the documents of the pages that
    could be fetched and converted, in the order of the listing, all of
    them without max_pages or with max_pages 0, else the first max_pages
    of them (none for a negative max_pages). A page that fails is
    skipped and does not count towards the limit. *)
Theorem confluence_pages_limit_and_order (html_to_text : pyvalue → option string)
    (settings : ConfluenceSettings) (client : confluence_client) :
  confluence_pages py_str html_to_text settings client
  = match all_pages client with
    | None => []
    | Some pages =>
        let fetched := omap (page_document py_str html_to_text settings client) pages in
        match max_pages settings with
        | None => fetched
        | Some m => if decide (m = 0) then fetched else take (Z.to_nat m) fetched
        end
    end.
Proof.
  unfold confluence_pages. destruct (all_pages client) as [pages|]; [|done].
  rewrite fetch_pages_take. simpl. unfold max_pages_or_inf.
  destruct (max_pages settings) as [m|]; [|done].
  destruct (decide (m = 0)); [done|]. by rewrite Z.sub_0_r.
Qed.

(** Property X21.  Every document of ConfluenceSpaceHandler.process
    comes from a listed page that could be fetched, and its metadata has
    exactly the keys page_id, title, space_key and url: the id and title
    of the listing (None and the empty string when absent), the
    configured space key, and the configured url followed by /pages/ and
    the id. *)
Theorem confluence_page_metadata (html_to_text : pyvalue → option string)
    (settings : ConfluenceSettings) (client : confluence_client) (doc : Document) :
  doc ∈ confluence_pages py_str html_to_text settings client →
  ∃ pages page page_data,
    all_pages client = Some pages ∧ page ∈ pages
    ∧ page_by_id client (default PNone (page !! "id")) = Some page_data
    ∧ dom (metadata doc) = ({["page_id"; "title"; "space_key"; "url"]} : gset string)
    ∧ metadata doc !! "page_id" = Some (default PNone (page !! "id"))
    ∧ metadata doc !! "title" = Some (default (PStr "") (page !! "title"))
    ∧ metadata doc !! "space_key" = Some (PStr (space_key settings))
    ∧ metadata doc !! "url"
      = Some (PStr (confluence_url settings +:+ "/pages/"
                      +:+ py_str (default PNone (page !! "id")))).
Proof.
  unfold confluence_pages.
  destruct (all_pages client) as [pages|]; [|by intros ?%elem_of_nil].
  rewrite fetch_pages_take, app_nil_l. intros Hin.
  assert (Hfetched : doc ∈ omap (page_document py_str html_to_text settings client) pages).
  { destruct (max_pages_or_inf settings) as [m|]; [|done].
    apply elem_of_take in Hin as (i & Hi & _).
    by eapply list_elem_of_lookup_2. }
  apply list_elem_of_omap in Hfetched as (page & Hpage & Hdoc).
  unfold page_document in Hdoc.
  destruct (page_by_id client (default PNone (page !! "id"))) as [page_data|] eqn:Hdata;
    [|done].
  simpl in Hdoc.
  destruct (value_get page_data "body" (PDict ∅)) as [body|]; [|done]. simpl in Hdoc.
  destruct (value_get body "storage" (PDict ∅)) as [field|]; [|done]. simpl in Hdoc.
  destruct (value_get field "value" (PStr "")) as [storage|]; [|done]. simpl in Hdoc.
  destruct (html_to_text storage) as [content|]; [|done]. simpl in Hdoc.
  injection Hdoc as <-.
  exists pages, page, page_data. split_and!; done.
Qed.

Lemma foldl_insert_lookup (items : list (pyvalue * pyvalue))
    (m : gmap string pyvalue) (key : string) :
  foldl (λ (m : gmap string pyvalue) kv, <[py_str kv.1 := kv.2]> m) m items !! key
  = match last (filter (λ kv, py_str kv.1 = key) items) with
    | Some kv => Some kv.2
    | None => m !! key
    end.
Proof.
  revert m. induction items as [|kv rest IH]; intros m; [done|].
  simpl foldl. rewrite IH, filter_cons.
  destruct (decide (py_str kv.1 = key)) as [Heq|Hne].
  - rewrite last_cons.
    destruct (last (filter (λ kv, py_str kv.1 = key) rest)); [done|].
    by rewrite Heq, lookup_insert_eq.
  - destruct (last (filter (λ kv, py_str kv.1 = key) rest)); [done|].
    by rewrite lookup_insert_ne.
Qed.

(** Property X22.  The constructor of Document raises exactly when the
    text is not a string; otherwise it keeps the text, and the metadata
    maps each key string to the value of the last item whose key has
    that string form, so two keys with the same str() collapse into one
    and the later wins. *)
Theorem make_document_normalises (content : pyvalue)
    (items : list (pyvalue * pyvalue)) :
  (make_document py_str content items = None ↔ ∀ s, content ≠ PStr s)
  ∧ ∀ doc, make_document py_str content items = Some doc →
      content = PStr (text doc)
      ∧ ∀ key, metadata doc !! key
               = snd <$> last (filter (λ kv, py_str kv.1 = key) items).
Proof.
  split.
  - unfold make_document.
    destruct content; (split; [intros H; try discriminate H; by intros s'|]);
      intros H; try reflexivity.
    exfalso. by eapply H.
  - intros doc Hdoc. unfold make_document in Hdoc.
    destruct content; try done. injection Hdoc as <-. split; [done|].
    intros key. simpl. rewrite foldl_insert_lookup.
    by destruct (last _).
Qed.

(** Property X23.  The registry of ParserFactory agrees with the
    extension guards inside the parsers: get_parser returns an
    ImageParser exactly for the extensions ImageParser.parse accepts,
    and a WordParser exactly for .docx and .doc, so a parser obtained
    from the factory never refuses the file for its extension. *)
Theorem factory_agrees_with_parser_guards (file_path : string) :
  (get_parser lower suffix file_path = Some ImageParser
   ↔ lower (suffix file_path) ∈ image_supported_exts)
  ∧ (get_parser lower suffix file_path = Some WordParser
     ↔ lower (suffix file_path) ∈ [".docx"; ".doc"]).
Proof.
  unfold get_parser, registered_parsers, image_supported_exts.
  generalize (lower (suffix file_path)). intros ext. split; split.
  - intros Hin%elem_of_list_to_map_2.
    repeat (apply elem_of_cons in Hin as [Hin|Hin];
            [try discriminate Hin; injection Hin as ->; set_solver|]).
    by apply elem_of_nil in Hin.
  - intros Hin.
    repeat (apply elem_of_cons in Hin as [->|Hin]; [reflexivity|]).
    by apply elem_of_nil in Hin.
  - intros Hin%elem_of_list_to_map_2.
    repeat (apply elem_of_cons in Hin as [Hin|Hin];
            [try discriminate Hin; injection Hin as ->; set_solver|]).
    by apply elem_of_nil in Hin.
  - intros Hin.
    repeat (apply elem_of_cons in Hin as [->|Hin]; [reflexivity|]).
    by apply elem_of_nil in Hin.
Qed.

Lemma excel_sheets_parsed (file_path : string)
    (sheets : list (string * option data_frame)) (documents : list Document) :
  excel_sheets path_str py_str file_path sheets documents
  = documents
    ++ omap (λ sheet, sheet_document path_str py_str file_path sheet.1 <$> sheet.2)
         sheets.
Proof.
  revert documents.
  induction sheets as [|[sheet_name [df|]] rest IH]; intros documents; simpl.
  - by rewrite app_nil_r.
  - by rewrite IH, <- app_assoc.
  - apply IH.
Qed.

Lemma pdf_pages_numbered (file_path : string) (announced : Z)
    (pages : list extraction) (idx : Z) (documents : list Document) :
  pdf_pages path_str file_path announced pages idx documents
  = documents
    ++ imap (λ i, pdf_page_document path_str file_path announced (idx + Z.of_nat i))
         pages.
Proof.
  revert idx documents.
  induction pages as [|page rest IH]; intros idx documents; simpl.
  - by rewrite app_nil_r.
  - rewrite IH, <- app_assoc. simpl. rewrite Z.add_0_r. do 2 f_equal.
    apply imap_ext. intros i x _. simpl. f_equal. lia.
Qed.

(** Property X24.  For a PDF that can be opened, PDFParser.parse returns
    one document per page it reads; document i has page_number i+1, the
    announced num_pages and the path, and its text is the extracted
    text, or the empty string when extraction returns None or raises: a
    page that cannot be extracted still has its document, so page
    numbers never shift. *)
Theorem pdf_parse_page_numbers (env : parser_environment) (file_path : string)
    (reader : pdf_reader) :
  pypdf2_installed env = true → is_file env file_path = true →
  pdf_open env file_path = Some reader →
  length (pdf_parse path_str env file_path) = length (pages_read reader)
  ∧ ∀ (i : nat) page, pages_read reader !! i = Some page →
      ∃ doc, pdf_parse path_str env file_path !! i = Some doc
        ∧ text doc = match page with Extracted (Some s) => s | _ => "" end
        ∧ metadata doc !! "page_number" = Some (PInt (Z.of_nat i + 1))
        ∧ metadata doc !! "num_pages" = Some (PInt (num_pages reader))
        ∧ metadata doc !! "file_path" = Some (PStr (path_str file_path)).
Proof.
  intros Hlib Hfile Hopen. unfold pdf_parse.
  rewrite Hlib, Hfile, Hopen. simpl negb. cbv iota.
  rewrite pdf_pages_numbered. rewrite app_nil_l. split.
  - by rewrite length_imap.
  - intros i page Hpage. eexists. split.
    + rewrite list_lookup_imap, Hpage. reflexivity.
    + simpl. split_and!; try done.
Qed.

(** Property X25.  For a workbook that can be opened, ExcelParser.parse
    returns one document per sheet that could be parsed, in the order of
    the workbook, each carrying its sheet name; a sheet that fails is
    skipped and the other sheets are kept. *)
Theorem excel_parse_skips_failing_sheets (env : parser_environment)
    (file_path : string) (sheets : list (string * option data_frame)) :
  is_file env file_path = true →
  excel_open env file_path = Some sheets →
  excel_parse path_str py_str env file_path
  = omap (λ sheet, sheet_document path_str py_str file_path sheet.1 <$> sheet.2)
      sheets
  ∧ (λ doc, metadata doc !! "sheet_name") <$> excel_parse path_str py_str env file_path
    = (λ sheet, Some (PStr sheet.1)) <$> filter (λ sheet, is_Some sheet.2) sheets.
Proof.
  intros Hfile Hopen.
  assert (Heq : excel_parse path_str py_str env file_path
    = omap (λ sheet, sheet_document path_str py_str file_path sheet.1 <$> sheet.2)
        sheets).
  { unfold excel_parse. rewrite Hfile, Hopen. simpl negb. cbv iota.
    by rewrite excel_sheets_parsed. }
  split; [done|]. rewrite Heq. clear.
  induction sheets as [|[sheet_name [df|]] rest IH].
  - done.
  - rewrite filter_cons_True by (simpl; eauto).
    change (omap ?f ((sheet_name, Some df) :: rest))
      with (sheet_document path_str py_str file_path sheet_name df :: omap f rest).
    rewrite !fmap_cons. f_equal. apply IH.
  - rewrite filter_cons_False by (simpl; by intros [? ?]).
    apply IH.
Qed.

Lemma parse_with_metadata (env : parser_environment) (cls : parser_class)
    (file_path : string) (doc : Document) :
  doc ∈ parse_with lower suffix path_str py_str strip lstrip_dot env cls file_path →
  metadata doc !! "file_path" = Some (PStr (path_str file_path))
  ∧ metadata doc !! "id" = None
  ∧ metadata doc !! "text" = None
  ∧ metadata doc !! "session_id" = None.
Proof.
  destruct cls; simpl parse_with.
  - unfold text_parse. destruct (is_file env file_path); simpl; [|by intros ?%elem_of_nil].
    destruct (read_text env file_path); [|by intros ?%elem_of_nil].
    by intros ->%list_elem_of_singleton.
  - unfold csv_parse. destruct (is_file env file_path); simpl; [|by intros ?%elem_of_nil].
    destruct (read_csv env file_path); [|by intros ?%elem_of_nil].
    by intros ->%list_elem_of_singleton.
  - unfold excel_parse. destruct (is_file env file_path); simpl; [|by intros ?%elem_of_nil].
    destruct (excel_open env file_path) as [sheets|]; [|by intros ?%elem_of_nil].
    rewrite excel_sheets_parsed, app_nil_l.
    intros ([sheet_name odf] & _ & Hdoc)%list_elem_of_omap. simpl in Hdoc.
    destruct odf as [df|]; [|done]. by injection Hdoc as <-.
  - unfold pdf_parse. destruct (pypdf2_installed env); simpl; [|by intros ?%elem_of_nil].
    destruct (is_file env file_path); simpl; [|by intros ?%elem_of_nil].
    destruct (pdf_open env file_path) as [reader|]; [|by intros ?%elem_of_nil].
    rewrite pdf_pages_numbered, app_nil_l.
    intros (i & page & -> & _)%elem_of_lookup_imap. done.
  - unfold word_parse.
    destruct (bool_decide _); simpl; [|by intros ?%elem_of_nil].
    destruct (is_file env file_path); simpl; [|by intros ?%elem_of_nil].
    destruct (decide _).
    + unfold parse_doc.
      destruct (textract_installed env); simpl; [|by intros ?%elem_of_nil].
      destruct (textract_process env file_path); [|by intros ?%elem_of_nil].
      by intros ->%list_elem_of_singleton.
    + unfold parse_docx.
      destruct (docx_installed env); simpl; [|by intros ?%elem_of_nil].
      destruct (docx_open env file_path); [|by intros ?%elem_of_nil].
      by intros ->%list_elem_of_singleton.
  - unfold image_parse.
    destruct (bool_decide _); simpl; [|by intros ?%elem_of_nil].
    destruct (is_file env file_path); simpl; [|by intros ?%elem_of_nil].
    destruct (ocr_installed env); simpl; [|by intros ?%elem_of_nil].
    destruct (tesseract_works env); simpl; [|by intros ?%elem_of_nil].
    destruct (ocr env file_path); [|by intros ?%elem_of_nil].
    by intros ->%list_elem_of_singleton.
Qed.

(** Property X26.  Every document returned by any of the six parsers has
    the path of the parsed file under 'file_path', and has no 'id', no
    'text' and no 'session_id' key in its metadata, so nothing a parser
    writes is overwritten by the store or by the session stamp. *)
Theorem parsed_document_metadata (env : parser_environment) (cls : parser_class)
    (file_path : string) (doc : Document) :
  doc ∈ parse_with lower suffix path_str py_str strip lstrip_dot env cls file_path →
  metadata doc !! "file_path" = Some (PStr (path_str file_path))
  ∧ metadata doc !! "id" = None
  ∧ metadata doc !! "text" = None
  ∧ metadata doc !! "session_id" = None.
Proof. apply parse_with_metadata. Qed.

(** Property X27.  Every document of GitRepositoryHandler.process comes
    from a file of the clone that passed the extension filters and whose
    extension has a parser, was returned by that parser for that file,
    and carries the path of that file under 'file_path'. *)
Theorem process_files_documents (env : parser_environment)
    (settings : GitSettings) (walk : list (string * list string)) (doc : Document) :
  doc ∈ process_files lower suffix join path_str py_str strip lstrip_dot env settings walk →
  ∃ root files filename cls,
    (root, files) ∈ walk ∧ filename ∈ files
    ∧ skipped lower suffix settings filename = false
    ∧ get_parser lower suffix (join root filename) = Some cls
    ∧ doc ∈ parse_with lower suffix path_str py_str strip lstrip_dot env cls
              (join root filename)
    ∧ metadata doc !! "file_path" = Some (PStr (path_str (join root filename))).
Proof.
  unfold process_files.
  intros (piece & Hdoc & Hpiece)%elem_of_concat_pieces.
  apply list_elem_of_fmap in Hpiece as (path & -> & Hpath).
  destruct (get_parser lower suffix path) as [cls|] eqn:Hcls;
    [|by apply elem_of_nil in Hdoc].
  rewrite iter_files_kept in Hpath.
  assert (Hkept : path ∈ kept_paths lower suffix join settings walk).
  { destruct (files_limit settings); [|done].
    apply elem_of_take in Hpath as (i & Hi & _).
    by eapply list_elem_of_lookup_2. }
  apply kept_paths_elem in Hkept as (root & files & filename & H1 & H2 & H3 & ->).
  exists root, files, filename, cls. split_and!; try done.
  by apply parse_with_metadata in Hdoc as [? _].
Qed.

End CollaboratorFacts.

(** Property X29.  For documents whose metadata has neither an 'id' nor
    a 'text' key, the entry written to metadata.json determines the
    identifier and the document: two entries are equal only for the same
    identifier and the same document, so nothing of such a document is
    lost in the store. *)
Theorem metadata_entry_keeps_document (i j : nat) (doc doc' : Document) :
  metadata doc !! "id" = None → metadata doc !! "text" = None →
  metadata doc' !! "id" = None → metadata doc' !! "text" = None →
  metadata_entry i doc = metadata_entry j doc' ↔ i = j ∧ doc = doc'.
Proof.
  intros Hid Htext Hid' Htext'. split; [|by intros [-> ->]].
  intros Heq. unfold metadata_entry in Heq.
  assert (Hi : i = j).
  { assert (H := f_equal (λ m : gmap string pyvalue, m !! "id") Heq). simpl in H.
    rewrite !lookup_insert_eq in H. injection H as H. lia. }
  assert (Ht : text doc = text doc').
  { assert (H := f_equal (λ m : gmap string pyvalue, m !! "text") Heq). simpl in H.
    rewrite !(lookup_insert_ne _ "id" "text") in H by done.
    rewrite !lookup_insert_eq in H. by injection H. }
  assert (Hm : metadata doc = metadata doc').
  { apply map_eq. intros key.
    destruct (decide (key = "id")) as [->|Hk1]; [by rewrite Hid, Hid'|].
    destruct (decide (key = "text")) as [->|Hk2]; [by rewrite Htext, Htext'|].
    assert (H := f_equal (λ m : gmap string pyvalue, m !! key) Heq). simpl in H.
    by rewrite !lookup_insert_ne in H by done. }
  split; [done|]. destruct doc, doc'. simpl in *. by subst.
Qed.

(* ================================================================== *)
(** * The further properties on the sample inputs *)
(* ================================================================== *)

Lemma embed_documents_first_failure_witness :
  embed_documents failing_second_service sample_embedding_config five_texts
    empty_world
  = (after_events
       (posts sample_embedding_config
          (take 2 (batches sample_embedding_config five_texts)))
       empty_world,
     inl ServiceError).
Proof.
  apply (embed_documents_first_failure failing_second_service
           sample_embedding_config five_texts empty_world 1 ["ccc"; "dddd"]
           ServiceError).
  - done.
  - reflexivity.
  - intros [|j] bj Hj Hbj; [|lia]. injection Hbj as <-.
    eexists. vm_compute. reflexivity.
  - reflexivity.
Defined.

Lemma embed_documents_nonpositive_batch_witness :
  (batch_size (mkEmbeddingConfig "" 0 ∅) = 0 →
   embed_documents sample_service (mkEmbeddingConfig "" 0 ∅) five_texts empty_world
   = (empty_world, inl PyValueError))
  ∧ (batch_size (mkEmbeddingConfig "" 0 ∅) < 0 →
     embed_documents sample_service (mkEmbeddingConfig "" 0 ∅) five_texts
       empty_world
     = (empty_world, inr [])).
Proof.
  apply (embed_documents_nonpositive_batch sample_service
           (mkEmbeddingConfig "" 0 ∅) five_texts empty_world).
  discriminate.
Defined.


Lemma collect_documents_in_source_order_witness :
  ∃ evs,
    collect_documents sample_sources sample_config empty_world
    = (after_events evs empty_world,
       inr (stamped sample_config (sample_documents ++ [] ++ [])))
    ∧ Forall collection_event evs.
Proof.
  apply (collect_documents_in_source_order sample_sources sample_config
           empty_world sample_documents [] []).
  - reflexivity.
  - reflexivity.
  - reflexivity.
  - discriminate.
Defined.


Lemma run_pipeline_unchecked_batch_size_witness :
  (batch_size (embedding_config zero_batch_config) = 0 →
   run_pipeline sample_sources sample_service healthy_disk zero_batch_config
     empty_world
   = (empty_world, inl PyValueError))
  ∧ (batch_size (embedding_config zero_batch_config) < 0 →
     run_pipeline sample_sources sample_service healthy_disk zero_batch_config
       empty_world
     = (empty_world, inl (CardinalityError (length sample_documents) 0))).
Proof.
  apply (run_pipeline_unchecked_batch_size sample_sources sample_service
           healthy_disk zero_batch_config empty_world empty_world
           sample_documents).
  reflexivity.
Defined.

Lemma iter_files_respects_filters_witness :
  ∃ root files filename,
    (root, files) ∈ sample_walk ∧ filename ∈ files
    ∧ "repo/README.MD" = sample_join root filename
    ∧ (∀ exts, exclude_extensions filtering_settings = Some exts →
         sample_lower (sample_suffix filename) ∉ sample_lower <$> exts)
    ∧ (∀ exts, include_extensions filtering_settings = Some exts → exts ≠ [] →
         sample_lower (sample_suffix filename) ∈ sample_lower <$> exts).
Proof.
  apply (iter_files_respects_filters sample_lower sample_suffix sample_join
           filtering_settings sample_walk "repo/README.MD").
  apply (list_elem_of_lookup_2 _ 1%nat). reflexivity.
Defined.

Lemma confluence_page_metadata_witness :
  ∃ pages page page_data,
    all_pages sample_client = Some pages ∧ page ∈ pages
    ∧ page_by_id sample_client (default PNone (page !! "id")) = Some page_data
    ∧ dom (metadata home_page_document)
      = ({["page_id"; "title"; "space_key"; "url"]} : gset string)
    ∧ metadata home_page_document !! "page_id"
      = Some (default PNone (page !! "id"))
    ∧ metadata home_page_document !! "title"
      = Some (default (PStr "") (page !! "title"))
    ∧ metadata home_page_document !! "space_key"
      = Some (PStr (space_key sample_confluence_settings))
    ∧ metadata home_page_document !! "url"
      = Some (PStr (confluence_url sample_confluence_settings +:+ "/pages/"
                      +:+ sample_py_str (default PNone (page !! "id")))).
Proof.
  apply (confluence_page_metadata sample_py_str sample_html_to_text
           sample_confluence_settings sample_client home_page_document).
  apply (list_elem_of_lookup_2 _ 0%nat). vm_compute. reflexivity.
Defined.

Lemma pdf_parse_page_numbers_witness :
  length (pdf_parse sample_path_str sample_parser_environment "paper.pdf")
  = length (pages_read sample_reader)
  ∧ ∀ (i : nat) page, pages_read sample_reader !! i = Some page →
      ∃ doc,
        pdf_parse sample_path_str sample_parser_environment "paper.pdf" !! i
        = Some doc
        ∧ text doc = match page with Extracted (Some s) => s | _ => "" end
        ∧ metadata doc !! "page_number" = Some (PInt (Z.of_nat i + 1))
        ∧ metadata doc !! "num_pages" = Some (PInt (num_pages sample_reader))
        ∧ metadata doc !! "file_path" = Some (PStr (sample_path_str "paper.pdf")).
Proof.
  apply (pdf_parse_page_numbers sample_path_str sample_parser_environment
           "paper.pdf" sample_reader); reflexivity.
Defined.

Lemma excel_parse_skips_failing_sheets_witness :
  excel_parse sample_path_str sample_py_str sample_parser_environment "book.xlsx"
  = omap (λ sheet,
            sheet_document sample_path_str sample_py_str "book.xlsx" sheet.1
              <$> sheet.2)
      sample_sheets
  ∧ (λ doc, metadata doc !! "sheet_name")
      <$> excel_parse sample_path_str sample_py_str sample_parser_environment
            "book.xlsx"
    = (λ sheet, Some (PStr sheet.1))
        <$> filter (λ sheet, is_Some sheet.2) sample_sheets.
Proof.
  apply (excel_parse_skips_failing_sheets sample_path_str sample_py_str
           sample_parser_environment "book.xlsx" sample_sheets); reflexivity.
Defined.

Lemma parsed_document_metadata_witness :
  metadata plain_document !! "file_path" = Some (PStr (sample_path_str "a.txt"))
  ∧ metadata plain_document !! "id" = None
  ∧ metadata plain_document !! "text" = None
  ∧ metadata plain_document !! "session_id" = None.
Proof.
  apply (parsed_document_metadata sample_lower sample_suffix sample_path_str
           sample_py_str sample_strip sample_lstrip_dot sample_parser_environment
           TextParser "a.txt" plain_document).
  apply (list_elem_of_lookup_2 _ 0%nat). vm_compute. reflexivity.
Defined.

Lemma process_files_documents_witness :
  ∃ root files filename cls,
    (root, files) ∈ sample_walk ∧ filename ∈ files
    ∧ skipped sample_lower sample_suffix filtering_settings filename = false
    ∧ get_parser sample_lower sample_suffix (sample_join root filename) = Some cls
    ∧ repository_text_document
      ∈ parse_with sample_lower sample_suffix sample_path_str sample_py_str
          sample_strip sample_lstrip_dot sample_parser_environment cls
          (sample_join root filename)
    ∧ metadata repository_text_document !! "file_path"
      = Some (PStr (sample_path_str (sample_join root filename))).
Proof.
  apply (process_files_documents sample_lower sample_suffix sample_join
           sample_path_str sample_py_str sample_strip sample_lstrip_dot
           sample_parser_environment filtering_settings sample_walk
           repository_text_document).
  apply (list_elem_of_lookup_2 _ 0%nat). vm_compute. reflexivity.
Defined.

Lemma metadata_entry_keeps_document_witness :
  metadata_entry 0 plain_document = metadata_entry 1 repository_text_document
  ↔ 0%nat = 1%nat ∧ plain_document = repository_text_document.
Proof.
  apply (metadata_entry_keeps_document 0 1 plain_document repository_text_document);
    reflexivity.
Defined.
